(** * Resolution framework: reconciler, framework driver and git resolver

    Shallow embedding of the tektoncd/resolution core:
    - [ResolutionRequest] reconciler of
      pkg/reconciler/resolutionrequest/resolutionrequest.go;
    - the generic framework driver of pkg/resolver/framework and the git
      resolver of gitresolver/pkg/git, whose sources are not part of this
      development and are modelled from the specification. *)

From Stdlib Require Import String Ascii ZArith List Lia.
From Stdlib Require Import Strings.Byte.
From Stdlib Require Import Floats.SpecFloat.
Import ListNotations.
Open Scope string_scope.
Open Scope Z_scope.
Open Scope bool_scope.

(** ** Go helpers *)

(** The double-quote character, used by Go's %q verb. *)
Definition dq : string := String "034"%char EmptyString.

(** [fmt.Sprintf("%q", s)] for strings that need no escaping. *)
Definition quote (s : string) : string := dq ++ s ++ dq.

(** Lookup in a Go map[string]V, represented as an association list. *)
Fixpoint lookup {A : Type} (k : string) (m : list (string * A)) : option A :=
  match m with
  | [] => None
  | (k', v) :: m' => if String.eqb k k' then Some v else lookup k m'
  end.

Definition has_key {A : Type} (k : string) (m : list (string * A)) : bool :=
  match lookup k m with Some _ => true | None => false end.

(** ** time.Duration and time.Time

    A [time.Duration] is an int64 count of nanoseconds; a wall-clock
    instant is an integer number of nanoseconds since the epoch. *)

Definition minDuration : Z := - 2 ^ 63.
Definition maxDuration : Z := 2 ^ 63 - 1.

(** int64 wrap-around, as Go's [-] on [time.Duration]. *)
Definition wrap64 (z : Z) : Z := (z + 2 ^ 63) mod 2 ^ 64 - 2 ^ 63.

Definition duration_sub (a b : Z) : Z := wrap64 (a - b).

(** [t.Sub(u)]: the difference, saturated to the int64 range. *)
Definition time_sub (t u : Z) : Z :=
  if t - u <? minDuration then minDuration
  else if maxDuration <? t - u then maxDuration
  else t - u.

Definition Nanosecond : Z := 1.
Definition Microsecond : Z := 1000.
Definition Millisecond : Z := 1000000.
Definition Second : Z := 1000000000.
Definition Minute : Z := 60 * Second.
Definition Hour : Z := 60 * Minute.

(** ** API types (pkg/apis/resolution/v1alpha1) *)

Inductive ConditionStatus := CondTrue | CondFalse | CondUnknown.

Record Condition := {
  cond_status : ConditionStatus;
  cond_reason : string;
  cond_message : string
}.

Record ResolutionRequestStatus := {
  (** the [apis.ConditionSucceeded] condition, if any *)
  st_condition : option Condition;
  st_annotations : list (string * string);
  st_data : string
}.

Record ResolutionRequest := {
  rr_name : string;
  rr_namespace : string;
  rr_labels : list (string * string);
  rr_params : list (string * string);
  rr_creation : Z;
  rr_status : ResolutionRequestStatus
}.

Definition set_status (rr : ResolutionRequest) (s : ResolutionRequestStatus)
  : ResolutionRequest :=
  {| rr_name := rr_name rr; rr_namespace := rr_namespace rr;
     rr_labels := rr_labels rr; rr_params := rr_params rr;
     rr_creation := rr_creation rr; rr_status := s |}.

Definition set_condition (s : ResolutionRequestStatus) (c : Condition)
  : ResolutionRequestStatus :=
  {| st_condition := Some c; st_annotations := st_annotations s;
     st_data := st_data s |}.

(** Reason and message constants of pkg/common. *)
Definition ReasonResolutionInProgress : string := "ResolutionInProgress".
Definition ReasonResolutionFailed : string := "ResolutionFailed".
Definition ReasonResolutionTimedOut : string := "ResolutionTimedOut".
Definition ReasonResolverParamsInvalid : string := "ResolverParamsInvalid".
Definition MessageWaitingForResolver : string := "waiting for resolver".

(** Modelled from the spec: the status helpers of v1alpha1
    ([IsDone], [InitializeConditions], [MarkSucceeded], [MarkFailed],
    [MarkInProgress]): the Succeeded condition goes from Unknown to True or
    False, and a request whose condition is True or False is done. *)
Definition IsDone (rr : ResolutionRequest) : bool :=
  match st_condition (rr_status rr) with
  | Some c => match cond_status c with
              | CondTrue | CondFalse => true
              | CondUnknown => false
              end
  | None => false
  end.

Definition InitializeConditions (s : ResolutionRequestStatus)
  : ResolutionRequestStatus :=
  set_condition s {| cond_status := CondUnknown; cond_reason := "";
                     cond_message := "" |}.

Definition MarkSucceeded (s : ResolutionRequestStatus) : ResolutionRequestStatus :=
  set_condition s {| cond_status := CondTrue; cond_reason := "";
                     cond_message := "" |}.

Definition MarkFailed (reason message : string) (s : ResolutionRequestStatus)
  : ResolutionRequestStatus :=
  set_condition s {| cond_status := CondFalse; cond_reason := reason;
                     cond_message := message |}.

Definition MarkInProgress (message : string) (s : ResolutionRequestStatus)
  : ResolutionRequestStatus :=
  set_condition s {| cond_status := CondUnknown;
                     cond_reason := ReasonResolutionInProgress;
                     cond_message := message |}.

(** The [reconciler.Event] returned by a reconcile. *)
Inductive Event :=
  | EvNil
  | EvRequeueAfter (d : Z)
  | EvError (msg : string).

(** ** pkg/reconciler/resolutionrequest *)
Module ResolutionRequestReconciler.

Definition defaultMaximumResolutionDuration : Z := 1 * Minute.

(** [defaultMaximumResolutionDuration] rendered by Go's %s verb. *)
Definition defaultMaximumResolutionDuration_string : string := "1m0s".

(** [requestDuration]: time elapsed since creation, [now] being the
    wall-clock [time.Now()] read by that call. *)
Definition requestDuration (now : Z) (rr : ResolutionRequest) : Z :=
  time_sub now (rr_creation rr).

(** [ReconcileKind] calls [requestDuration] (and so [time.Now()]) twice:
    [now] is the clock read by the timeout test of the switch, [now'] the one
    read when computing the re-queue delay. *)
Definition ReconcileKind (now now' : Z) (orr : option ResolutionRequest)
  : option ResolutionRequest * Event :=
  match orr with
  | None => (None, EvNil)
  | Some rr =>
    if IsDone rr then (Some rr, EvNil) else
    let s0 := rr_status rr in
    let s1 := match st_condition s0 with
              | None => InitializeConditions s0
              | Some _ => s0
              end in
    if negb (String.eqb (st_data s1) "") then
      (Some (set_status rr (MarkSucceeded s1)), EvNil)
    else if defaultMaximumResolutionDuration <? requestDuration now rr then
      let message := "resolution took longer than global timeout of "
                     ++ defaultMaximumResolutionDuration_string in
      (Some (set_status rr (MarkFailed ReasonResolutionTimedOut message s1)), EvNil)
    else
      (Some (set_status rr (MarkInProgress MessageWaitingForResolver s1)),
       EvRequeueAfter (duration_sub defaultMaximumResolutionDuration
                                    (requestDuration now' rr)))
  end.

End ResolutionRequestReconciler.

(** ** Status data encoding

    Modelled from the spec: the framework driver stores resolved content in
    [status.data] with a fixed reversible encoding; the framework's tests
    compare it with [base64.StdEncoding.Strict()], so this is standard
    base64 (RFC 4648 alphabet, '=' padding, strict: padding bits zero). *)
Module Base64.

Definition encodeStd : string :=
  "ABCDEFGHIJKLMNOPQRSTUVWXYZabcdefghijklmnopqrstuvwxyz0123456789+/".

Definition padChar : ascii := "=".

Definition enc_char (k : Z) : ascii :=
  match String.get (Z.to_nat k) encodeStd with
  | Some c => c
  | None => padChar
  end.

(** Inverse of the alphabet, by ASCII ranges. *)
Definition dec_char (c : ascii) : option Z :=
  let n := Z.of_nat (nat_of_ascii c) in
  if (65 <=? n) && (n <=? 90) then Some (n - 65)
  else if (97 <=? n) && (n <=? 122) then Some (n - 71)
  else if (48 <=? n) && (n <=? 57) then Some (n + 4)
  else if n =? 43 then Some 62
  else if n =? 47 then Some 63
  else None.

Definition b2z (b : byte) : Z := Z.of_N (Byte.to_N b).
Definition z2b (z : Z) : option byte := Byte.of_N (Z.to_N z).

Fixpoint bytes_of (zs : list Z) : option (list byte) :=
  match zs with
  | [] => Some []
  | z :: zs' =>
    match z2b z, bytes_of zs' with
    | Some b, Some bs => Some (b :: bs)
    | _, _ => None
    end
  end.

(** Modelled from the spec: the encoding of [status.data] (base64, as the
    framework's tests expect): each 3-byte group becomes 4 sextets; a final
    group of 2 or 1 bytes is padded with '='. *)
Fixpoint EncodeToString (src : list byte) : string :=
  match src with
  | a :: b :: c :: rest =>
    let v := b2z a * 65536 + b2z b * 256 + b2z c in
    String (enc_char (v / 262144)) (String (enc_char (v / 4096 mod 64))
      (String (enc_char (v / 64 mod 64)) (String (enc_char (v mod 64))
        (EncodeToString rest))))
  | [a; b] =>
    let v := b2z a * 65536 + b2z b * 256 in
    String (enc_char (v / 262144)) (String (enc_char (v / 4096 mod 64))
      (String (enc_char (v / 64 mod 64)) (String padChar EmptyString)))
  | [a] =>
    let v := b2z a * 65536 in
    String (enc_char (v / 262144)) (String (enc_char (v / 4096 mod 64))
      (String padChar (String padChar EmptyString)))
  | [] => EmptyString
  end.

(** Modelled from the spec: strict decoding of [status.data] by
    4-character quanta; padding only in the last one, with its unused bits
    zero. *)
Fixpoint DecodeString (s : string) : option (list byte) :=
  match s with
  | EmptyString => Some []
  | String c1 (String c2 (String c3 (String c4 rest))) =>
    match dec_char c1, dec_char c2 with
    | Some d1, Some d2 =>
      if Ascii.eqb c3 padChar then
        if Ascii.eqb c4 padChar && String.eqb rest "" && (d2 mod 16 =? 0) then
          bytes_of [(d1 * 262144 + d2 * 4096) / 65536]
        else None
      else
        match dec_char c3 with
        | None => None
        | Some d3 =>
          if Ascii.eqb c4 padChar then
            if String.eqb rest "" && (d3 mod 4 =? 0) then
              let v := d1 * 262144 + d2 * 4096 + d3 * 64 in
              bytes_of [v / 65536; v / 256 mod 256]
            else None
          else
            match dec_char c4 with
            | None => None
            | Some d4 =>
              let v := d1 * 262144 + d2 * 4096 + d3 * 64 + d4 in
              match bytes_of [v / 65536; v / 256 mod 256; v mod 256],
                    DecodeString rest with
              | Some bs, Some bs' => Some (app bs bs')
              | _, _ => None
              end
            end
        end
    | _, _ => None
    end
  | _ => None
  end.

End Base64.

(** ** time.ParseDuration

    Go's standard-library [time.ParseDuration] (not part of this repository),
    used on resolver configuration values such as [timeout: "5s"], embedded
    after its source: an optional sign, then "0" or a sequence of decimal
    numbers, each with an optional fraction and a unit among ns, us, µs, μs,
    ms, s, m, h. The accumulators are uint64 (arithmetic mod 2^64); the
    fraction of a component is added through float64 arithmetic, modelled
    with the IEEE 754 binary64 operations of [SpecFloat] (round to nearest
    even). A Go string is a sequence of bytes, here one [ascii] per byte.
    Errors are [None]. *)
Module Duration.

(** uint64 arithmetic. *)
Definition u64 (z : Z) : Z := z mod 2 ^ 64.

(** float64: binary64, 53-bit significand, exponents below 1024. *)
Definition float64 : Type := spec_float.
Definition fmul (x y : float64) : float64 := SFmul 53 1024 x y.
Definition fdiv (x y : float64) : float64 := SFdiv 53 1024 x y.

(** [float64(x)] of a uint64 [x]: rounded to the nearest float64. *)
Definition float64_of_uint64 (x : Z) : float64 := binary_normalize 53 1024 x 0 false.

(** [uint64(x)] of a float64 [x]: truncated toward zero. Only reached with a
    finite non-negative [x] below 2^64; other values give 0 here (Go leaves
    them implementation-defined). *)
Definition uint64_of_float64 (x : float64) : Z :=
  match x with
  | S754_finite false m e =>
    if 0 <=? e then Z.shiftl (Zpos m) e else Z.shiftr (Zpos m) (- e)
  | _ => 0
  end.

(** "µs" (U+00B5) and "μs" (U+03BC), as their UTF-8 bytes. *)
Definition micro_sign_s : string := String "194"%char (String "181"%char "s").
Definition greek_mu_s : string := String "206"%char (String "188"%char "s").

Definition unitMap (u : string) : option Z :=
  if String.eqb u "ns" then Some Nanosecond
  else if String.eqb u "us" then Some Microsecond
  else if String.eqb u micro_sign_s then Some Microsecond
  else if String.eqb u greek_mu_s then Some Microsecond
  else if String.eqb u "ms" then Some Millisecond
  else if String.eqb u "s" then Some Second
  else if String.eqb u "m" then Some Minute
  else if String.eqb u "h" then Some Hour
  else None.

(** ['0' <= c && c <= '9'] *)
Definition is_digit (c : ascii) : bool :=
  let n := nat_of_ascii c in (48 <=? n)%nat && (n <=? 57)%nat.

(** [uint64(c) - '0'] *)
Definition digit (c : ascii) : Z := Z.of_nat (nat_of_ascii c) - 48.

(** [leadingInt]: consumes the leading [0-9]*; [None] on overflow. *)
Fixpoint leadingInt_loop (x : Z) (s : list ascii) : option (Z * list ascii) :=
  match s with
  | [] => Some (x, [])
  | c :: s' =>
    if negb (is_digit c) then Some (x, s)
    else if 2 ^ 63 / 10 <? x then None
    else
      let x := u64 (x * 10 + digit c) in
      if 2 ^ 63 <? x then None
      else leadingInt_loop x s'
  end.

Definition leadingInt (s : list ascii) : option (Z * list ascii) :=
  leadingInt_loop 0 s.

(** [leadingFraction]: consumes the leading [0-9]*, returning the digits
    kept [x] and [scale] (10 to the number of digits kept); on overflow it
    stops accumulating. *)
Fixpoint leadingFraction_loop (x : Z) (scale : float64) (overflow : bool)
  (s : list ascii) : Z * float64 * list ascii :=
  match s with
  | [] => (x, scale, [])
  | c :: s' =>
    if negb (is_digit c) then (x, scale, s)
    else if overflow then leadingFraction_loop x scale overflow s'
    else if (2 ^ 63 - 1) / 10 <? x then leadingFraction_loop x scale true s'
    else
      let y := u64 (x * 10 + digit c) in
      if 2 ^ 63 <? y then leadingFraction_loop x scale true s'
      else leadingFraction_loop y (fmul scale (float64_of_uint64 10)) overflow s'
  end.

Definition leadingFraction (s : list ascii) : Z * float64 * list ascii :=
  leadingFraction_loop 0 (float64_of_uint64 1) false s.

(** The unit: the bytes up to the next '.' or digit. *)
Fixpoint unit_prefix (s : list ascii) : list ascii * list ascii :=
  match s with
  | [] => ([], [])
  | c :: s' =>
    if Ascii.eqb c "." || is_digit c then ([], s)
    else let '(u, rest) := unit_prefix s' in (c :: u, rest)
  end.

(** The loop [for s != ""] of [ParseDuration], with the total [d] so far.
    Each iteration consumes at least one byte, so [length s] iterations
    suffice: [fuel] is that bound. *)
Fixpoint components (fuel : nat) (s : list ascii) (d : Z) : option Z :=
  match s with
  | [] => Some d
  | c0 :: _ =>
    match fuel with
    | O => None
    | S fuel =>
      (* The next character must be [0-9.] *)
      if negb (Ascii.eqb c0 "." || is_digit c0) then None else
      (* Consume the leading digits *)
      match leadingInt s with
      | None => None
      | Some (v, s1) =>
        let pre := negb (Nat.eqb (length s) (length s1)) in
        (* Consume an optional fraction: a dot and digits *)
        let '(f, scale, s2, post) :=
          match s1 with
          | "."%char :: s1' =>
            let '(f, scale, s2) := leadingFraction s1' in
            (f, scale, s2, negb (Nat.eqb (length s1') (length s2)))
          | _ => (0, float64_of_uint64 1, s1, false)
          end in
        if negb pre && negb post then None else
        (* Consume unit. *)
        let '(u, s3) := unit_prefix s2 in
        match u with
        | [] => None
        | _ =>
          match unitMap (string_of_list_ascii u) with
          | None => None
          | Some unit =>
            if 2 ^ 63 / unit <? v then None else
            let v := u64 (v * unit) in
            let ov :=
              if 0 <? f then
                let v := u64 (v + uint64_of_float64
                                    (fmul (float64_of_uint64 f)
                                          (fdiv (float64_of_uint64 unit) scale))) in
                if 2 ^ 63 <? v then None else Some v
              else Some v in
            match ov with
            | None => None
            | Some v =>
              let d := u64 (d + v) in
              if 2 ^ 63 <? d then None
              else components fuel s3 d
            end
          end
        end
      end
    end
  end.

Definition ParseDuration (s : string) : option Z :=
  let orig := list_ascii_of_string s in
  (* Consume [-+]? *)
  let '(neg, cs) :=
    match orig with
    | c :: cs' =>
      if Ascii.eqb c "-" || Ascii.eqb c "+" then (Ascii.eqb c "-", cs')
      else (false, orig)
    | [] => (false, orig)
    end in
  match cs with
  | ["0"%char] => Some 0
  | [] => None
  | _ =>
    match components (length cs) cs 0 with
    | None => None
    | Some d =>
      (* [-Duration(d)]: int64 conversion and negation, both wrapping *)
      if neg then Some (wrap64 (- wrap64 d))
      else if 2 ^ 63 - 1 <? d then None
      else Some d
    end
  end.

End Duration.

(** ** pkg/resolver/framework

    Modelled from the spec (the framework sources are not part of this
    development): the [Resolver] contract and the generic reconciliation
    driver of section 4.2. *)
Module Framework.

(** Request-scoped resolver configuration, as injected in the context by
    [InjectResolverConfigToContext]; [None] when absent. *)
Definition ResolverConfig := option (list (string * string)).

Record ResolvedResource := {
  rs_data : list byte;
  rs_annotations : list (string * string)
}.

(** Errors of [Resolve]: expiry of the context deadline, or any other. *)
Inductive ResolveError :=
  | ErrDeadlineExceeded
  | ErrResolve (msg : string).

Definition ErrDeadlineExceeded_message : string := "context deadline exceeded".

(** Modelled from the spec: the resolver contract of section 4.1. *)
Class Resolver (R : Type) := {
  GetName : R -> string;
  GetSelector : R -> list (string * string);
  ValidateParams : R -> list (string * string) -> option string;
  GetResolutionTimeout : R -> ResolverConfig -> Z -> Z;
  (** [Resolve r timeout params]: resolution under a context canceled after
      [timeout]. *)
  Resolve : R -> Z -> list (string * string) -> ResolveError + ResolvedResource
}.

Definition defaultMaximumResolutionDuration : Z := 1 * Minute.
Definition defaultMaximumResolutionDuration_string : string := "1m0s".

Definition set_data_annotations (s : ResolutionRequestStatus)
  (data : string) (ann : list (string * string)) : ResolutionRequestStatus :=
  {| st_condition := st_condition s; st_annotations := ann; st_data := data |}.

(** Step 5b: the per-call timeout, the resolver's own bounded by the
    remaining global budget. *)
Definition effective_timeout {R : Type} `{Resolver R} (r : R) (conf : ResolverConfig)
  (elapsed : Z) : Z :=
  Z.min (GetResolutionTimeout r conf defaultMaximumResolutionDuration)
        (defaultMaximumResolutionDuration - elapsed).

(** Modelled from the spec: one reconcile of a request by the framework
    driver, following steps 1-5 of the transition algorithm of section
    4.2. *)
Definition Reconcile {R : Type} `{Resolver R} (r : R) (conf : ResolverConfig)
  (now : Z) (rr : ResolutionRequest) : ResolutionRequest * Event :=
  if IsDone rr then (rr, EvNil) else
  let s0 := rr_status rr in
  let s1 := match st_condition s0 with
            | None => InitializeConditions s0
            | Some _ => s0
            end in
  let elapsed := time_sub now (rr_creation rr) in
  if defaultMaximumResolutionDuration <? elapsed then
    let message := "resolution took longer than global timeout of "
                   ++ defaultMaximumResolutionDuration_string in
    (set_status rr (MarkFailed ReasonResolutionTimedOut message s1), EvNil)
  else
    match ValidateParams r (rr_params rr) with
    | Some err =>
      (set_status rr (MarkFailed ReasonResolverParamsInvalid err s1), EvError err)
    | None =>
      match Resolve r (effective_timeout r conf elapsed) (rr_params rr) with
      | inr res =>
        let s2 := set_data_annotations s1 (Base64.EncodeToString (rs_data res))
                                          (rs_annotations res) in
        (set_status rr (MarkSucceeded s2), EvNil)
      | inl ErrDeadlineExceeded =>
        (set_status rr (MarkFailed ReasonResolutionTimedOut
                          ErrDeadlineExceeded_message s1),
         EvError ErrDeadlineExceeded_message)
      | inl (ErrResolve e) =>
        let message := "error getting " ++ quote (GetName r) ++ " "
                       ++ quote (rr_namespace rr ++ "/" ++ rr_name rr) ++ ": " ++ e in
        (set_status rr (MarkFailed ReasonResolutionFailed message s1), EvError message)
      end
    end.

End Framework.

(** ** gitresolver/pkg/git

    Modelled from the spec (the resolver's sources are not part of this
    development; only its tests are): parameter validation, the
    configured timeout, and the resolution algorithm of section 4.3 over an
    abstract repository store. *)
Module Git.

Definition LabelKeyResolverType : string := "resolution.tekton.dev/type".
Definition LabelValueGitResolverType : string := "git".
Definition URLParam : string := "url".
Definition PathParam : string := "path".
Definition CommitParam : string := "commit".
Definition BranchParam : string := "branch".
Definition ConfigFieldTimeout : string := "timeout".

(** [params[k]] of a Go map: the zero value when absent. *)
Definition get (k : string) (m : list (string * string)) : string :=
  match lookup k m with Some v => v | None => "" end.

(** A tree maps repository-relative paths to blobs or sub-directories. *)
Inductive TreeEntry :=
  | Blob (content : list byte)
  | Subtree.

Definition Tree := list (string * TreeEntry).

(** A repository: commit objects by id (their trees), references by full
    name (refs/heads/...) to commit ids, and the default branch reference
    that HEAD names. *)
Record Repository := {
  repo_commits : list (string * Tree);
  repo_refs : list (string * string);
  repo_head : string
}.

(** The remotes reachable by url. *)
Definition Remotes := list (string * Repository).

Record ResolvedGitResource := {
  Content : list byte;
  Commit : string
}.

(** Modelled from the spec: the git resolver's [ValidateParams]; url and
    path are required, commit and branch exclude each other. *)
Definition ValidateParams (params : list (string * string)) : option string :=
  if negb (has_key URLParam params) then Some "missing required git resolver param url"
  else if negb (has_key PathParam params) then Some "missing required git resolver param path"
  else if has_key CommitParam params && has_key BranchParam params then
    Some ("supplied both " ++ quote CommitParam ++ " and " ++ quote BranchParam)
  else None.

(** Modelled from the spec: the git resolver's [GetResolutionTimeout]; the
    "timeout" entry of the resolver configuration, parsed as a duration, or
    the caller's default when absent or invalid. The parser is Go's
    [time.ParseDuration] ([Duration.ParseDuration]). *)
Definition GetResolutionTimeout (conf : Framework.ResolverConfig) (defaultTimeout : Z) : Z :=
  match conf with
  | Some m =>
    match lookup ConfigFieldTimeout m with
    | Some timeoutString =>
      match Duration.ParseDuration timeoutString with
      | Some timeout => timeout
      | None => defaultTimeout
      end
    | None => defaultTimeout
    end
  | None => defaultTimeout
  end.

Definition branch_ref (b : string) : string := "refs/heads/" ++ b.

(** Modelled from the spec: step 2 of the git resolution algorithm, the
    commit to check out. *)
Definition resolve_ref (repo : Repository) (params : list (string * string))
  : string + string :=
  match lookup CommitParam params with
  | Some c =>
    if has_key c (repo_commits repo) then inr c
    else inl "checkout error: object not found"
  | None =>
    match lookup BranchParam params with
    | Some b =>
      match lookup (branch_ref b) (repo_refs repo) with
      | Some id => inr id
      | None => inl ("clone error: couldn't find remote ref " ++ quote (branch_ref b))
      end
    | None =>
      match lookup (repo_head repo) (repo_refs repo) with
      | Some id => inr id
      | None => inl "clone error: remote repository is empty"
      end
    end
  end.

Definition file_not_found (path : string) : string :=
  "error opening file " ++ quote path ++ ": file does not exist".

(** Modelled from the spec: the git resolver's [Resolve] (section 4.3):
    repository by url, commit selection, then the blob at the path. *)
Definition Resolve (remotes : Remotes) (params : list (string * string))
  : string + ResolvedGitResource :=
  match lookup (get URLParam params) remotes with
  | None => inl "clone error: repository not found"
  | Some repo =>
    match resolve_ref repo params with
    | inl e => inl e
    | inr id =>
      match lookup id (repo_commits repo) with
      | None => inl "checkout error: object not found"
      | Some tree =>
        let path := get PathParam params in
        match lookup path tree with
        | Some (Blob content) => inr {| Content := content; Commit := id |}
        | _ => inl (file_not_found path)
        end
      end
    end
  end.

(** The git resolver as a framework [Resolver]. *)
Record GitResolver := { remotes : Remotes }.

#[export] Instance GitResolver_Resolver : Framework.Resolver GitResolver := {
  Framework.GetName _ := "Git";
  Framework.GetSelector _ := [(LabelKeyResolverType, LabelValueGitResolverType)];
  Framework.ValidateParams _ params := ValidateParams params;
  Framework.GetResolutionTimeout _ conf d := GetResolutionTimeout conf d;
  Framework.Resolve r _ params :=
    match Resolve (remotes r) params with
    | inl e => inl (Framework.ErrResolve e)
    | inr res => inr {| Framework.rs_data := Content res;
                        Framework.rs_annotations := [] |}
    end
}.

End Git.


(** Modelled from the spec: the fake resolver of the framework's tests
    (its source is not part of this development): a resource or an error per
    value of its single parameter; it fails with a deadline expiry when it
    needs longer than the timeout it is given. *)
Module FrameworkTesting.

Definition LabelValueFakeResolverType : string := "fake".
Definition FakeParamName : string := "fake-key".

Record FakeResolvedResource := {
  fake_content : string;
  fake_annotations : list (string * string);
  fake_error_with : string;
  fake_wait_for : Z
}.

Record FakeResolver := {
  ForParam : list (string * FakeResolvedResource);
  fake_timeout : option Z
}.

#[export] Instance FakeResolver_Resolver : Framework.Resolver FakeResolver := {
  Framework.GetName _ := "Fake";
  Framework.GetSelector _ := [(Git.LabelKeyResolverType, LabelValueFakeResolverType)];
  Framework.ValidateParams _ params :=
    if has_key FakeParamName params then None
    else Some ("missing " ++ FakeParamName);
  Framework.GetResolutionTimeout r _ d :=
    match fake_timeout r with Some t => t | None => d end;
  Framework.Resolve r timeout params :=
    let v := Git.get FakeParamName params in
    match lookup v (ForParam r) with
    | None => inl (Framework.ErrResolve ("couldn't find resource for param value " ++ v))
    | Some f =>
      if timeout <? fake_wait_for f then inl Framework.ErrDeadlineExceeded
      else if negb (String.eqb (fake_error_with f) "") then
        inl (Framework.ErrResolve (fake_error_with f))
      else inr {| Framework.rs_data := list_byte_of_string (fake_content f);
                  Framework.rs_annotations := fake_annotations f |}
    end
}.

(** The requests and resolvers of the framework's reconcile tests. *)
Definition fake_request : ResolutionRequest :=
  {| rr_name := "rr"; rr_namespace := "foo";
     rr_labels := [(Git.LabelKeyResolverType, LabelValueFakeResolverType)];
     rr_params := [(FakeParamName, "bar")];
     rr_creation := 0;
     rr_status := {| st_condition := None; st_annotations := []; st_data := "" |} |}.

Definition failing_resolver : FakeResolver :=
  {| ForParam := [("bar", {| fake_content := ""; fake_annotations := [];
                             fake_error_with := "fake failure"; fake_wait_for := 0 |})];
     fake_timeout := None |}.

Definition known_resolver : FakeResolver :=
  {| ForParam := [("bar", {| fake_content := "some content";
                             fake_annotations := [("foo", "bar")];
                             fake_error_with := ""; fake_wait_for := 0 |})];
     fake_timeout := None |}.

End FrameworkTesting.


(** Repositories built like the git resolver's test fixtures
    ([CreateTestRepo]): a README commit, then commits writing
    foo/bar/somefile. *)
Module GitTesting.
Import Git.

Definition hash0 : string := "5b2c0e0a9c4f1d7e3a6b8c9d0e1f2a3b4c5d6e7f".
Definition hash1 : string := "0c1d2e3f405162738495a6b7c8d9eafb0c1d2e3f".
Definition hash2 : string := "9f8e7d6c5b4a39281706f5e4d3c2b1a098765432".

Definition readme : string * TreeEntry :=
  ("README", Blob (list_byte_of_string "This is a test")).

Definition tree_with (content : string) : Tree :=
  [readme; ("foo", Subtree); ("foo/bar", Subtree);
   ("foo/bar/somefile", Blob (list_byte_of_string content))].

(** Two sequential commits on the default branch (P7). *)
Definition history_repo : Repository :=
  {| repo_commits := [(hash0, [readme]); (hash1, tree_with "some content");
                      (hash2, tree_with "different content")];
     repo_refs := [("refs/heads/master", hash2)];
     repo_head := "refs/heads/master" |}.

(** other-branch carries "some content", the default branch
    "wrong content" (P6). *)
Definition branch_repo : Repository :=
  {| repo_commits := [(hash0, [readme]); (hash1, tree_with "some content");
                      (hash2, tree_with "wrong content")];
     repo_refs := [("refs/heads/other-branch", hash1); ("refs/heads/master", hash2)];
     repo_head := "refs/heads/master" |}.

Definition test_remotes : Remotes :=
  [("/tmp/history", history_repo); ("/tmp/branches", branch_repo)].

End GitTesting.


(** The git resolver's output as the specification describes it, to be
    compared with [Git.Resolve]: the commit is the given one, else the tip of
    refs/heads/<branch>, else the default branch tip; the content is the
    blob at the path in that commit's tree; ids are full lowercase hex. *)
Module GitSpec.
Import Git.

Definition expected_commit (repo : Repository) (params : list (string * string))
  : option string :=
  if has_key CommitParam params then Some (get CommitParam params)
  else if has_key BranchParam params then
    lookup (branch_ref (get BranchParam params)) (repo_refs repo)
  else lookup (repo_head repo) (repo_refs repo).

Definition file_at (repo : Repository) (id path : string) : option (list byte) :=
  match lookup id (repo_commits repo) with
  | Some tree =>
    match lookup path tree with
    | Some (Blob c) => Some c
    | _ => None
    end
  | None => None
  end.

Definition is_lower_hex (c : ascii) : bool :=
  let n := nat_of_ascii c in
  ((48 <=? n) && (n <=? 57))%nat || ((97 <=? n) && (n <=? 102))%nat.

Definition is_hex_id (s : string) : bool :=
  (String.length s =? 40)%nat && forallb is_lower_hex (list_ascii_of_string s).

(** Every commit object of the repository is named by a full hex id. *)
Definition commit_ids_hex (repo : Repository) : bool :=
  forallb (fun p => is_hex_id (fst p)) (repo_commits repo).

End GitSpec.

(** ** CreateTestRepo (gitresolver/pkg/git/testing)

    The bookkeeping of the git test fixture: for each commit, the checkout
    options it uses and the map from branch names to the hashes of the
    commits made on them. The hash that [worktree.Commit] returns for the
    i-th commit is a parameter ([hash_of i]). *)
Module CreateTestRepo.

Record CommitForRepo := {
  Dir : string;
  Filename : string;
  cmt_Content : string;
  cmt_Branch : string
}.

(** [plumbing.Master.Short()] *)
Definition MasterShort : string := "master".

Record CheckoutOptions := {
  co_Branch : string;
  co_Hash : option string;
  co_Create : bool
}.

(** [plumbing.NewBranchReferenceName] *)
Definition NewBranchReferenceName (b : string) : string := "refs/heads/" ++ b.

(** Assignment [m[k] = v] of a Go map. *)
Fixpoint map_set {A : Type} (k : string) (v : A) (m : list (string * A))
  : list (string * A) :=
  match m with
  | [] => [(k, v)]
  | (k', v') :: m' => if String.eqb k k' then (k, v) :: m' else (k', v') :: map_set k v m'
  end.

(** The branch a commit goes to: its own, or master when empty. *)
Definition commit_branch (cmt : CommitForRepo) : string :=
  if String.eqb (cmt_Branch cmt) "" then MasterShort else cmt_Branch cmt.

(** The loop over [commits], from the i-th one on, with the map
    [hashesByBranch] built so far; returns the checkout options used and the
    final map. *)
Fixpoint commit_loop (hash_of : nat -> string) (startingHash : string) (i : nat)
  (commits : list CommitForRepo) (hashesByBranch : list (string * list string))
  : list CheckoutOptions * list (string * list string) :=
  match commits with
  | [] => ([], hashesByBranch)
  | cmt :: rest =>
    let branch := commit_branch cmt in
    let coOpts :=
      if negb (has_key branch hashesByBranch) && negb (String.eqb branch MasterShort)
      then {| co_Branch := NewBranchReferenceName branch;
              co_Hash := Some startingHash; co_Create := true |}
      else {| co_Branch := NewBranchReferenceName branch;
              co_Hash := None; co_Create := false |} in
    let hash := hash_of i in
    let hashesByBranch' :=
      match lookup branch hashesByBranch with
      | None => map_set branch [hash] hashesByBranch
      | Some hs => map_set branch (app hs [hash]) hashesByBranch
      end in
    let '(opts, final) := commit_loop hash_of startingHash (S i) rest hashesByBranch' in
    (coOpts :: opts, final)
  end.

Definition create_test_repo (hash_of : nat -> string) (startingHash : string)
  (commits : list CommitForRepo) : list CheckoutOptions * list (string * list string) :=
  commit_loop hash_of startingHash 0 commits [].

(** Positions, counted from [i], of the commits that go to branch [b]. *)
Fixpoint commit_indices (b : string) (commits : list CommitForRepo) (i : nat) : list nat :=
  match commits with
  | [] => []
  | cmt :: rest =>
    if String.eqb (commit_branch cmt) b then i :: commit_indices b rest (S i)
    else commit_indices b rest (S i)
  end.

(** The commits of TestResolve's "with branch" case. *)
Definition with_branch_commits : list CommitForRepo :=
  [{| Dir := "foo/bar"; Filename := "somefile"; cmt_Content := "some content";
      cmt_Branch := "other-branch" |};
   {| Dir := "foo/bar"; Filename := "somefile"; cmt_Content := "wrong content";
      cmt_Branch := "" |}].

Definition sample_hash (i : nat) : string :=
  match i with 0%nat => "h0" | 1%nat => "h1" | 2%nat => "h2" | _ => "hn" end.

End CreateTestRepo.

(** Fixtures for the reconciler's properties. *)
Module ReconcilerTesting.
Import ResolutionRequestReconciler.

Definition timeout_message : string :=
  "resolution took longer than global timeout of "
  ++ defaultMaximumResolutionDuration_string.

(** The request after a reconcile is Failed with reason ResolutionTimedOut. *)
Definition failed_timed_out (o : option ResolutionRequest) : Prop :=
  match o with
  | Some rr' =>
    match st_condition (rr_status rr') with
    | Some c => cond_status c = CondFalse /\ cond_reason c = ReasonResolutionTimedOut
    | None => False
    end
  | None => False
  end.

(** A sample non-terminal request created at instant 0. *)
Definition sample_rr (data : string) (cond : option Condition) : ResolutionRequest :=
  {| rr_name := "rr"; rr_namespace := "foo";
     rr_labels := [("resolution.tekton.dev/type", "git")];
     rr_params := [("url", "https://example.com/repo.git"); ("path", "task.yaml")];
     rr_creation := 0;
     rr_status := {| st_condition := cond; st_annotations := [];
                     st_data := data |} |}.

End ReconcilerTesting.

(** * Properties of the duration parser *)
Module DurationFacts.
Import Duration.

Lemma leadingInt_loop_len (x : Z) (s : list ascii) (v : Z) (s1 : list ascii) :
  leadingInt_loop x s = Some (v, s1) -> (length s1 <= length s)%nat.
Proof.
  revert x. induction s as [|c s IH]; intros x E; cbn [leadingInt_loop] in E.
  - injection E as _ <-. simpl. lia.
  - destruct (negb (is_digit c)).
    + injection E as _ <-. simpl. lia.
    + destruct (_ / 10 <? x); [discriminate|].
      destruct (_ <? u64 (x * 10 + digit c)); [discriminate|].
      apply IH in E. simpl. lia.
Qed.

Lemma leadingFraction_loop_len (x : Z) (sc : float64) (o : bool) (s : list ascii) :
  (length (snd (leadingFraction_loop x sc o s)) <= length s)%nat.
Proof.
  revert x sc o. induction s as [|c s IH]; intros x sc o; cbn [leadingFraction_loop].
  - simpl. lia.
  - destruct (negb (is_digit c)); [cbn [length snd fst]; lia|].
    destruct o; [specialize (IH x sc true); cbn [length snd fst]; lia|].
    destruct (_ / 10 <? x); [specialize (IH x sc true); cbn [length snd fst]; lia|].
    destruct (_ <? u64 (x * 10 + digit c));
      [specialize (IH x sc true); cbn [length snd fst]; lia|].
    specialize (IH (u64 (x * 10 + digit c)) (fmul sc (float64_of_uint64 10)) false).
    cbn [length]. lia.
Qed.

Lemma unit_prefix_len (s : list ascii) :
  (length (fst (unit_prefix s)) + length (snd (unit_prefix s)) = length s)%nat.
Proof.
  induction s as [|c s IH]; simpl; [reflexivity|].
  destruct (Ascii.eqb c "." || is_digit c); simpl; [reflexivity|].
  destruct (unit_prefix s) as [u r]. simpl in *. lia.
Qed.

Lemma fraction_part_len (s1 : list ascii) (f : Z) (sc : float64) (s2 : list ascii)
  (post : bool) :
  match s1 with
  | "."%char :: s1' =>
    let '(f, scale, s2) := leadingFraction s1' in
    (f, scale, s2, negb (Nat.eqb (length s1') (length s2)))
  | _ => (0, float64_of_uint64 1, s1, false)
  end = (f, sc, s2, post) ->
  (length s2 <= length s1)%nat.
Proof.
  intros H. destruct s1 as [|a s1'].
  - injection H as _ _ <- _. simpl. lia.
  - destruct a as [[] [] [] [] [] [] [] []];
      try (injection H as _ _ <- _; simpl; lia).
    pose proof (leadingFraction_loop_len 0 (float64_of_uint64 1) false s1') as Hl.
    unfold leadingFraction in H.
    destruct (leadingFraction_loop 0 (float64_of_uint64 1) false s1') as [[f' sc'] s2'].
    injection H as _ _ <- _. simpl in *. lia.
Qed.

(** The fuel of [components] is never the limit: any bound at least the
    length of the input gives the same result, since each iteration consumes
    at least one byte (the unit is not empty). *)
Lemma components_fuel (n m : nat) (s : list ascii) (d : Z) :
  (length s <= n)%nat -> (length s <= m)%nat ->
  components n s d = components m s d.
Proof.
  revert m s d. induction n as [|n IH]; intros m s d Hn Hm.
  - destruct s; [destruct m; reflexivity | simpl in Hn; lia].
  - destruct s as [|c0 s0]; [destruct m; reflexivity |].
    destruct m as [|m]; [simpl in Hm; lia |].
    cbn [components].
    destruct (negb (Ascii.eqb c0 "." || is_digit c0)); [reflexivity|].
    destruct (leadingInt (c0 :: s0)) as [[v s1]|] eqn:Hl; [|reflexivity].
    apply leadingInt_loop_len in Hl.
    repeat match goal with
      | |- context [match ?x with _ => _ end] =>
          lazymatch x with
          | context [components] => fail
          | _ => destruct x eqn:?
          end
      end.
    all: try reflexivity.
    all: match goal with
         | H : _ = (_, _, ?l, _), H2 : unit_prefix ?l = (_ :: _, ?r) |- _ =>
             apply fraction_part_len in H;
             pose proof (unit_prefix_len l) as Hu; rewrite H2 in Hu; simpl in Hu;
             apply IH; simpl in *; lia
         end.
Qed.
Example parse_fractions :
  ParseDuration "1.5h" = Some (90 * Minute) /\
  ParseDuration ".5s" = Some (500 * Millisecond) /\
  ParseDuration "1.s" = Some Second /\
  ParseDuration "0.1s" = Some (100 * Millisecond) /\
  ParseDuration "-1.25m" = Some (- 75 * Second).
Proof. vm_compute. repeat split. Qed.

Example parse_micro :
  ParseDuration ("2" ++ micro_sign_s) = Some (2 * Microsecond) /\
  ParseDuration ("2" ++ greek_mu_s) = Some (2 * Microsecond) /\
  ParseDuration "2us" = Some (2 * Microsecond).
Proof. vm_compute. repeat split. Qed.

Example parse_bounds :
  ParseDuration "-9223372036854775808ns" = Some minDuration /\
  ParseDuration "9223372036854775807ns" = Some maxDuration /\
  ParseDuration "9223372036854775808ns" = None /\
  ParseDuration "-0" = Some 0 /\ ParseDuration "+0" = Some 0.
Proof. vm_compute. repeat split. Qed.

Example parse_errors :
  ParseDuration "" = None /\ ParseDuration "-" = None /\
  ParseDuration ".s" = None /\ ParseDuration "1.5" = None /\
  ParseDuration "1x" = None /\ ParseDuration "h" = None.
Proof. vm_compute. repeat split. Qed.

End DurationFacts.

(** * String lemmas *)
Module StringFacts.

Lemma string_app_assoc (a b c : string) : (a ++ b) ++ c = a ++ b ++ c.
Proof. induction a as [| x a IH]; simpl; [reflexivity | rewrite IH; reflexivity]. Qed.

Lemma quote_app (s x : string) : quote s ++ x = dq ++ s ++ dq ++ x.
Proof. unfold quote. rewrite !string_app_assoc. reflexivity. Qed.

End StringFacts.
Import StringFacts.

(** * Properties of the ResolutionRequest reconciler *)
Module ResolutionRequestReconcilerFacts.
Import ResolutionRequestReconciler ReconcilerTesting.

Lemma wrap64_small (z : Z) : - 2 ^ 63 <= z < 2 ^ 63 -> wrap64 z = z.
Proof.
  intros H. unfold wrap64.
  replace (2 ^ 64) with (2 * 2 ^ 63) by reflexivity.
  generalize dependent (2 ^ 63). intros p Hz.
  rewrite Z.mod_small by lia. ring.
Qed.

Lemma requeue_no_wrap (e : Z) :
  0 <= e -> e <= defaultMaximumResolutionDuration ->
  duration_sub defaultMaximumResolutionDuration e
  = defaultMaximumResolutionDuration - e.
Proof.
  intros H0 Hle.
  unfold duration_sub. apply wrap64_small.
  unfold defaultMaximumResolutionDuration, Minute, Second in *.
  assert (Hp : 10 ^ 12 < 2 ^ 63) by reflexivity.
  generalize dependent (2 ^ 63). intros. lia.
Qed.

Lemma data_after_init (rr : ResolutionRequest) :
  st_data (match st_condition (rr_status rr) with
           | None => InitializeConditions (rr_status rr)
           | Some _ => rr_status rr
           end) = st_data (rr_status rr).
Proof. destruct (st_condition (rr_status rr)); reflexivity. Qed.

Example requestDuration_59s :
  requestDuration (59 * Second) (sample_rr "" None) = 59 * Second.
Proof. reflexivity. Qed.

Example reconcile_pending_requeues :
  ReconcileKind (59 * Second) (59 * Second) (Some (sample_rr "" None))
  = (Some (set_status (sample_rr "" None)
             (MarkInProgress MessageWaitingForResolver
                (InitializeConditions (rr_status (sample_rr "" None))))),
     EvRequeueAfter Second).
Proof. reflexivity. Qed.

(** C3: reconciling a request whose Succeeded condition is already True or
    False returns no event and leaves the request, and so its status,
    unchanged, whatever the clock reads. *)
Theorem reconcile_done_noop (now now' : Z) (rr : ResolutionRequest) :
  IsDone rr = true ->
  ReconcileKind now now' (Some rr) = (Some rr, EvNil).
Proof. intros H. simpl. rewrite H. reflexivity. Qed.

Lemma reconcile_done_noop_witness :
  IsDone (sample_rr "" (Some {| cond_status := CondFalse;
                               cond_reason := ReasonResolutionTimedOut;
                               cond_message := "m" |})) = true /\
  ReconcileKind (5 * Minute) (5 * Minute)
    (Some (sample_rr "" (Some {| cond_status := CondFalse;
                                cond_reason := ReasonResolutionTimedOut;
                                cond_message := "m" |})))
  = (Some (sample_rr "" (Some {| cond_status := CondFalse;
                                cond_reason := ReasonResolutionTimedOut;
                                cond_message := "m" |})), EvNil).
Proof. split; [reflexivity | apply reconcile_done_noop; reflexivity]. Defined.

(** C10: a non-terminal request with non-empty status data is marked
    Succeeded, with no event, whatever its elapsed time: the data check comes
    before the global-timeout check. *)
Theorem reconcile_data_succeeds (now now' : Z) (rr : ResolutionRequest) :
  IsDone rr = false ->
  st_data (rr_status rr) <> "" ->
  exists rr',
    ReconcileKind now now' (Some rr) = (Some rr', EvNil) /\
    st_condition (rr_status rr') =
      Some {| cond_status := CondTrue; cond_reason := ""; cond_message := "" |} /\
    st_data (rr_status rr') = st_data (rr_status rr).
Proof.
  intros Hdone Hdata. simpl. rewrite Hdone.
  rewrite data_after_init.
  destruct (String.eqb_spec (st_data (rr_status rr)) "") as [E | _];
    [contradiction | simpl].
  eexists; split; [reflexivity | split; [reflexivity |]].
  simpl. apply data_after_init.
Qed.

Lemma reconcile_data_succeeds_witness :
  IsDone (sample_rr "content" None) = false /\
  st_data (rr_status (sample_rr "content" None)) <> "" /\
  exists rr',
    ReconcileKind (10 * Minute) (10 * Minute) (Some (sample_rr "content" None))
      = (Some rr', EvNil) /\
    st_condition (rr_status rr') =
      Some {| cond_status := CondTrue; cond_reason := ""; cond_message := "" |} /\
    st_data (rr_status rr') = st_data (rr_status (sample_rr "content" None)).
Proof.
  split; [reflexivity | split; [discriminate |]].
  apply reconcile_data_succeeds; [reflexivity | discriminate].
Defined.

(** C2, as stated, fails: a request with non-empty data is marked
    Succeeded however late it is reconciled, and a request reconciled exactly
    at the global ceiling (elapsed = 1m) stays in progress, since the check is
    a strict [>]. *)
Lemma reconcile_timeout_claim_counterexample :
  ~ (forall now now' rr,
       IsDone rr = false ->
       defaultMaximumResolutionDuration <= requestDuration now rr ->
       failed_timed_out (fst (ReconcileKind now now' (Some rr)))) /\
  fst (ReconcileKind (5 * Minute) (5 * Minute) (Some (sample_rr "content" None)))
  = Some (set_status (sample_rr "content" None)
            (MarkSucceeded (InitializeConditions (rr_status (sample_rr "content" None))))) /\
  snd (ReconcileKind Minute Minute (Some (sample_rr "" None))) = EvRequeueAfter 0.
Proof.
  split; [| split; reflexivity].
  intros H.
  specialize (H (5 * Minute) (5 * Minute) (sample_rr "content" None) eq_refl).
  assert (Hle : defaultMaximumResolutionDuration
                <= requestDuration (5 * Minute) (sample_rr "content" None))
    by (vm_compute; discriminate).
  specialize (H Hle). vm_compute in H. destruct H as [H _]. discriminate H.
Qed.

(** C2 (amended): a non-terminal request whose status data is empty and
    whose elapsed time, as read by the timeout test, strictly exceeds the
    global maximum resolution duration is marked Failed with reason
    ResolutionTimedOut and the message naming the global timeout; no event
    is returned. *)
Theorem reconcile_global_timeout (now now' : Z) (rr : ResolutionRequest) :
  IsDone rr = false ->
  st_data (rr_status rr) = "" ->
  defaultMaximumResolutionDuration < requestDuration now rr ->
  exists rr',
    ReconcileKind now now' (Some rr) = (Some rr', EvNil) /\
    st_condition (rr_status rr') =
      Some {| cond_status := CondFalse; cond_reason := ReasonResolutionTimedOut;
              cond_message := timeout_message |} /\
    failed_timed_out (Some rr').
Proof.
  intros Hdone Hdata Hlt. simpl. rewrite Hdone, data_after_init, Hdata. simpl.
  apply Z.ltb_lt in Hlt. rewrite Hlt.
  eexists; split; [reflexivity |]. simpl. split; [reflexivity | split; reflexivity].
Qed.

Lemma reconcile_global_timeout_witness :
  exists rr',
    ReconcileKind (61 * Second) (61 * Second) (Some (sample_rr "" None)) = (Some rr', EvNil) /\
    st_condition (rr_status rr') =
      Some {| cond_status := CondFalse; cond_reason := ReasonResolutionTimedOut;
              cond_message := timeout_message |} /\
    failed_timed_out (Some rr').
Proof. apply reconcile_global_timeout; [reflexivity | reflexivity | vm_compute; reflexivity]. Defined.

(** C6: a non-terminal request with empty data whose elapsed time, as read
    by the timeout test, does not exceed the global maximum is marked in
    progress with the waiting-for-resolver message, and a re-queue is
    requested after the global maximum minus the elapsed time read for the
    delay (a [time.Duration] subtraction); when that elapsed time is between
    0 and the global maximum, this is the exact difference, between 0 and the
    global maximum. *)
Theorem reconcile_requeue_remaining (now now' : Z) (rr : ResolutionRequest) :
  IsDone rr = false ->
  st_data (rr_status rr) = "" ->
  requestDuration now rr <= defaultMaximumResolutionDuration ->
  exists rr',
    ReconcileKind now now' (Some rr)
    = (Some rr', EvRequeueAfter (duration_sub defaultMaximumResolutionDuration
                                              (requestDuration now' rr))) /\
    st_condition (rr_status rr') =
      Some {| cond_status := CondUnknown; cond_reason := ReasonResolutionInProgress;
              cond_message := MessageWaitingForResolver |} /\
    (0 <= requestDuration now' rr ->
     requestDuration now' rr <= defaultMaximumResolutionDuration ->
     duration_sub defaultMaximumResolutionDuration (requestDuration now' rr)
     = defaultMaximumResolutionDuration - requestDuration now' rr /\
     0 <= defaultMaximumResolutionDuration - requestDuration now' rr
       <= defaultMaximumResolutionDuration).
Proof.
  intros Hdone Hdata Hle. unfold ReconcileKind. cbv zeta beta iota.
  rewrite Hdone, data_after_init, Hdata.
  assert (Hf : (defaultMaximumResolutionDuration <? requestDuration now rr) = false)
    by (apply Z.ltb_ge; exact Hle).
  rewrite Hf. cbv beta iota.
  eexists; split; [reflexivity | split; [reflexivity |]].
  intros H0 Hle'. split.
  - apply requeue_no_wrap; assumption.
  - generalize dependent (requestDuration now' rr). intros e H0 Hle'. lia.
Qed.

Lemma reconcile_requeue_remaining_witness :
  exists rr',
    ReconcileKind (59 * Second) (59 * Second) (Some (sample_rr "" None))
    = (Some rr', EvRequeueAfter (duration_sub defaultMaximumResolutionDuration
                   (requestDuration (59 * Second) (sample_rr "" None)))) /\
    st_condition (rr_status rr') =
      Some {| cond_status := CondUnknown; cond_reason := ReasonResolutionInProgress;
              cond_message := MessageWaitingForResolver |} /\
    (0 <= requestDuration (59 * Second) (sample_rr "" None) ->
     requestDuration (59 * Second) (sample_rr "" None) <= defaultMaximumResolutionDuration ->
     duration_sub defaultMaximumResolutionDuration
       (requestDuration (59 * Second) (sample_rr "" None))
     = defaultMaximumResolutionDuration
       - requestDuration (59 * Second) (sample_rr "" None) /\
     0 <= defaultMaximumResolutionDuration
          - requestDuration (59 * Second) (sample_rr "" None)
       <= defaultMaximumResolutionDuration).
Proof.
  apply reconcile_requeue_remaining; [reflexivity | reflexivity | vm_compute; discriminate].
Defined.

End ResolutionRequestReconcilerFacts.

(** * Further properties of [ReconcileKind] *)
Module ReconcilerExtraFacts.
Import ResolutionRequestReconciler ReconcilerTesting.

Ltac rr_simpl :=
  cbn [set_status rr_name rr_namespace rr_labels rr_params rr_creation rr_status
       st_data st_annotations st_condition cond_status MarkSucceeded MarkFailed
       MarkInProgress InitializeConditions set_condition IsDone] in *.

(** Splits a goal about [ReconcileKind now now' (Some rr)] along its
    branches. *)
Ltac reconcile_cases now rr :=
  unfold ReconcileKind; cbv zeta;
  destruct (IsDone rr) eqn:Hdone;
  [| destruct (st_condition (rr_status rr)) as [c |] eqn:Hcond;
     destruct (negb (String.eqb _ "")) eqn:Hdata;
     destruct (defaultMaximumResolutionDuration <? requestDuration now rr) eqn:Htime].

Lemma time_sub_range (t u : Z) : minDuration <= time_sub t u <= maxDuration.
Proof.
  unfold time_sub.
  assert (Hm : minDuration <= maxDuration) by (vm_compute; discriminate).
  destruct (t - u <? minDuration) eqn:E1, (maxDuration <? t - u) eqn:E2;
    rewrite ?Z.ltb_lt, ?Z.ltb_ge in *; lia.
Qed.

Lemma wrap64_over (z : Z) : 2 ^ 63 <= z < 2 ^ 64 + 2 ^ 63 -> wrap64 z = z - 2 ^ 64.
Proof.
  intros H. unfold wrap64.
  replace (2 ^ 64) with (2 * 2 ^ 63) in * by reflexivity.
  generalize dependent (2 ^ 63). intros p Hz.
  rewrite <- (Z.mod_unique (z + p) (2 * p) 1 (z + p - 2 * p)); lia.
Qed.

(** A reconcile changes nothing but the Succeeded condition: the request's
    identity, labels, parameters, creation time, status data and status
    annotations are left as they were. *)
Theorem reconcile_frame (now now' : Z) (rr : ResolutionRequest) :
  exists rr' ev,
    ReconcileKind now now' (Some rr) = (Some rr', ev) /\
    rr_name rr' = rr_name rr /\ rr_namespace rr' = rr_namespace rr /\
    rr_labels rr' = rr_labels rr /\ rr_params rr' = rr_params rr /\
    rr_creation rr' = rr_creation rr /\
    st_data (rr_status rr') = st_data (rr_status rr) /\
    st_annotations (rr_status rr') = st_annotations (rr_status rr).
Proof.
  reconcile_cases now rr;
    eexists _, _; split; try reflexivity; rr_simpl; repeat split.
Qed.

(** After a reconcile the request always carries a Succeeded condition, the
    reconcile never reports an error, and it returns no event exactly when
    the request it leaves is done (otherwise it asks for a re-queue). *)
Theorem reconcile_event_iff_done (now now' : Z) (rr rr' : ResolutionRequest) (ev : Event) :
  ReconcileKind now now' (Some rr) = (Some rr', ev) ->
  st_condition (rr_status rr') <> None /\
  (IsDone rr' = true <-> ev = EvNil) /\
  (forall msg, ev <> EvError msg).
Proof.
  reconcile_cases now rr; intros E; injection E as <- <-; rr_simpl;
    try (rewrite Hdone); try (rewrite Hcond);
    repeat split; try discriminate; try reflexivity;
    try (unfold IsDone in Hdone; destruct (st_condition (rr_status rr)) as [[[] ? ?] |];
         discriminate).
Qed.

Lemma reconcile_event_iff_done_witness :
  ReconcileKind (59 * Second) (59 * Second) (Some (sample_rr "" None))
    = (Some (set_status (sample_rr "" None)
               (MarkInProgress MessageWaitingForResolver
                  (InitializeConditions (rr_status (sample_rr "" None))))),
       EvRequeueAfter Second) /\
  st_condition (rr_status (set_status (sample_rr "" None)
               (MarkInProgress MessageWaitingForResolver
                  (InitializeConditions (rr_status (sample_rr "" None)))))) <> None /\
  (IsDone (set_status (sample_rr "" None)
               (MarkInProgress MessageWaitingForResolver
                  (InitializeConditions (rr_status (sample_rr "" None))))) = true
   <-> EvRequeueAfter Second = EvNil) /\
  (forall msg, EvRequeueAfter Second <> EvError msg).
Proof.
  split; [reflexivity |].
  apply (reconcile_event_iff_done (59 * Second) (59 * Second) (sample_rr "" None)).
  reflexivity.
Defined.

(** A reconcile that returns no event leaves a done request, which every
    later reconcile, whatever the clock reads, returns unchanged with no
    event. *)
Theorem reconcile_settled_stable (now now' : Z) (rr rr' : ResolutionRequest) :
  ReconcileKind now now' (Some rr) = (Some rr', EvNil) ->
  forall t t', ReconcileKind t t' (Some rr') = (Some rr', EvNil).
Proof.
  intros E t t'.
  destruct (reconcile_event_iff_done now now' rr rr' EvNil E) as [_ [Hiff _]].
  assert (Hd : IsDone rr' = true) by (apply Hiff; reflexivity).
  unfold ReconcileKind. rewrite Hd. reflexivity.
Qed.

Lemma reconcile_settled_stable_witness :
  ReconcileKind (2 * Minute) (2 * Minute) (Some (sample_rr "content" None))
    = (Some (set_status (sample_rr "content" None)
               (MarkSucceeded (InitializeConditions (rr_status (sample_rr "content" None))))),
       EvNil) /\
  forall t t',
    ReconcileKind t t' (Some (set_status (sample_rr "content" None)
               (MarkSucceeded (InitializeConditions (rr_status (sample_rr "content" None))))))
    = (Some (set_status (sample_rr "content" None)
               (MarkSucceeded (InitializeConditions (rr_status (sample_rr "content" None))))),
       EvNil).
Proof.
  split; [reflexivity |].
  apply (reconcile_settled_stable (2 * Minute) (2 * Minute) (sample_rr "content" None)).
  reflexivity.
Defined.

Lemma in_progress_fixed (rr1 : ResolutionRequest) :
  st_condition (rr_status rr1) =
    Some {| cond_status := CondUnknown; cond_reason := ReasonResolutionInProgress;
            cond_message := MessageWaitingForResolver |} ->
  st_data (rr_status rr1) = "" ->
  (forall t t', requestDuration t rr1 <= defaultMaximumResolutionDuration ->
     ReconcileKind t t' (Some rr1)
     = (Some rr1, EvRequeueAfter (duration_sub defaultMaximumResolutionDuration
                                                (requestDuration t' rr1)))) /\
  (forall t t', defaultMaximumResolutionDuration < requestDuration t rr1 ->
     failed_timed_out (fst (ReconcileKind t t' (Some rr1))) /\
     snd (ReconcileKind t t' (Some rr1)) = EvNil).
Proof.
  destruct rr1 as [n ns l p cr [cond ann data]]. cbn [rr_status st_condition st_data].
  intros -> ->. split; intros t t' Ht.
  - apply Z.ltb_ge in Ht. unfold ReconcileKind. cbv zeta. rr_simpl.
    cbn [String.eqb negb]. rewrite Ht. reflexivity.
  - apply Z.ltb_lt in Ht. unfold ReconcileKind. cbv zeta. rr_simpl.
    cbn [String.eqb negb]. rewrite Ht. cbn. repeat split.
Qed.

Lemma requeue_result (now now' : Z) (rr rr1 : ResolutionRequest) (d : Z) :
  ReconcileKind now now' (Some rr) = (Some rr1, EvRequeueAfter d) ->
  st_condition (rr_status rr1) =
    Some {| cond_status := CondUnknown; cond_reason := ReasonResolutionInProgress;
            cond_message := MessageWaitingForResolver |} /\
  st_data (rr_status rr1) = "" /\ rr_creation rr1 = rr_creation rr.
Proof.
  reconcile_cases now rr; intros E; injection E as E1 Ed; try discriminate Ed;
    subst rr1; rr_simpl; split; try reflexivity; split; try reflexivity;
    apply Bool.negb_false_iff, String.eqb_eq in Hdata; exact Hdata.
Qed.

(** A request that a reconcile leaves in progress (with a re-queue) keeps
    its elapsed time, and a later reconcile of it, whatever the delay's
    clock read [t'], either returns it unchanged with a new re-queue after
    1m minus the elapsed time read at [t'] (when the timeout test's read [t]
    is at most 1m after creation), or fails it with ResolutionTimedOut and
    no event (when [t] is more than 1m after creation). *)
Theorem reconcile_requeue_next (now now' : Z) (rr rr1 : ResolutionRequest) (d : Z) :
  ReconcileKind now now' (Some rr) = (Some rr1, EvRequeueAfter d) ->
  (forall t, requestDuration t rr1 = requestDuration t rr) /\
  (forall t t', requestDuration t rr1 <= defaultMaximumResolutionDuration ->
     ReconcileKind t t' (Some rr1)
     = (Some rr1, EvRequeueAfter (duration_sub defaultMaximumResolutionDuration
                                                (requestDuration t' rr1)))) /\
  (forall t t', defaultMaximumResolutionDuration < requestDuration t rr1 ->
     failed_timed_out (fst (ReconcileKind t t' (Some rr1))) /\
     snd (ReconcileKind t t' (Some rr1)) = EvNil).
Proof.
  intros E. destruct (requeue_result now now' rr rr1 d E) as [Hc [Hd Hcr]].
  split; [intros t; unfold requestDuration; rewrite Hcr; reflexivity |].
  apply in_progress_fixed; assumption.
Qed.

Lemma reconcile_requeue_next_witness :
  (forall t, requestDuration t (set_status (sample_rr "" None)
               (MarkInProgress MessageWaitingForResolver
                  (InitializeConditions (rr_status (sample_rr "" None)))))
             = requestDuration t (sample_rr "" None)) /\
  (forall t t', requestDuration t (set_status (sample_rr "" None)
               (MarkInProgress MessageWaitingForResolver
                  (InitializeConditions (rr_status (sample_rr "" None)))))
                <= defaultMaximumResolutionDuration ->
     ReconcileKind t t' (Some (set_status (sample_rr "" None)
               (MarkInProgress MessageWaitingForResolver
                  (InitializeConditions (rr_status (sample_rr "" None))))))
     = (Some (set_status (sample_rr "" None)
               (MarkInProgress MessageWaitingForResolver
                  (InitializeConditions (rr_status (sample_rr "" None))))),
        EvRequeueAfter (duration_sub defaultMaximumResolutionDuration
          (requestDuration t' (set_status (sample_rr "" None)
               (MarkInProgress MessageWaitingForResolver
                  (InitializeConditions (rr_status (sample_rr "" None))))))))) /\
  (forall t t', defaultMaximumResolutionDuration
                < requestDuration t (set_status (sample_rr "" None)
               (MarkInProgress MessageWaitingForResolver
                  (InitializeConditions (rr_status (sample_rr "" None))))) ->
     failed_timed_out (fst (ReconcileKind t t' (Some (set_status (sample_rr "" None)
               (MarkInProgress MessageWaitingForResolver
                  (InitializeConditions (rr_status (sample_rr "" None)))))))) /\
     snd (ReconcileKind t t' (Some (set_status (sample_rr "" None)
               (MarkInProgress MessageWaitingForResolver
                  (InitializeConditions (rr_status (sample_rr "" None))))))) = EvNil).
Proof.
  apply (reconcile_requeue_next (20 * Second) (20 * Second) (sample_rr "" None)
           (set_status (sample_rr "" None)
              (MarkInProgress MessageWaitingForResolver
                 (InitializeConditions (rr_status (sample_rr "" None)))))
           (40 * Second)).
  reflexivity.
Defined.

(** The re-queue delay is [defaultMaximumResolutionDuration -
    requestDuration(rr)] computed in int64 from the second clock read
    [now']: the timeout test (first read) found at most 1m elapsed; the
    delay is 1m minus the elapsed time at [now'], unless that elapsed time is
    below 1m - (2^63 - 1) (a creation time about 292 years ahead of the
    clock), where the subtraction wraps around. The delay is negative exactly
    when the elapsed time at [now'] is over 1m (the clock passed the ceiling
    between the two reads) or in that wrap-around case. *)
Theorem reconcile_requeue_delay (now now' : Z) (rr rr' : ResolutionRequest) (d : Z) :
  ReconcileKind now now' (Some rr) = (Some rr', EvRequeueAfter d) ->
  requestDuration now rr <= defaultMaximumResolutionDuration /\
  (defaultMaximumResolutionDuration - maxDuration <= requestDuration now' rr ->
     d = defaultMaximumResolutionDuration - requestDuration now' rr) /\
  (requestDuration now' rr < defaultMaximumResolutionDuration - maxDuration ->
     d = defaultMaximumResolutionDuration - requestDuration now' rr - 2 ^ 64) /\
  (d < 0 <-> defaultMaximumResolutionDuration < requestDuration now' rr \/
             requestDuration now' rr < defaultMaximumResolutionDuration - maxDuration).
Proof.
  pose proof (time_sub_range now' (rr_creation rr)) as Hr.
  fold (requestDuration now' rr) in Hr.
  reconcile_cases now rr; intros E; injection E as _ Ed; try discriminate Ed; subst d;
    apply Z.ltb_ge in Htime;
    generalize dependent (requestDuration now rr); intros e0 Htime;
    generalize dependent (requestDuration now' rr); intros e Hr;
    unfold duration_sub;
    unfold minDuration, maxDuration, defaultMaximumResolutionDuration, Minute, Second in *;
    (split; [exact Htime|]);
    assert (Hp : 10 ^ 12 < 2 ^ 63) by reflexivity;
    (destruct (Z_le_gt_dec (1 * (60 * 1000000000) - (2 ^ 63 - 1)) e) as [Hc | Hc];
    [ rewrite ResolutionRequestReconcilerFacts.wrap64_small
        by (generalize dependent (2 ^ 63); intros; lia)
    | rewrite wrap64_over
        by (replace (2 ^ 64) with (2 * 2 ^ 63) by reflexivity;
            generalize dependent (2 ^ 63); intros; lia) ];
    replace (2 ^ 64) with (2 * 2 ^ 63) by reflexivity;
    generalize dependent (2 ^ 63); intros; lia).
Qed.

Lemma reconcile_requeue_delay_witness :
  ReconcileKind Minute (Minute + 1) (Some (sample_rr "" None))
    = (Some (set_status (sample_rr "" None)
               (MarkInProgress MessageWaitingForResolver
                  (InitializeConditions (rr_status (sample_rr "" None))))),
       EvRequeueAfter (-1)) /\
  requestDuration Minute (sample_rr "" None) <= defaultMaximumResolutionDuration /\
  (defaultMaximumResolutionDuration - maxDuration
     <= requestDuration (Minute + 1) (sample_rr "" None) ->
   -1 = defaultMaximumResolutionDuration - requestDuration (Minute + 1) (sample_rr "" None)) /\
  (requestDuration (Minute + 1) (sample_rr "" None)
     < defaultMaximumResolutionDuration - maxDuration ->
   -1 = defaultMaximumResolutionDuration - requestDuration (Minute + 1) (sample_rr "" None)
        - 2 ^ 64) /\
  (-1 < 0 <-> defaultMaximumResolutionDuration < requestDuration (Minute + 1) (sample_rr "" None) \/
              requestDuration (Minute + 1) (sample_rr "" None)
                < defaultMaximumResolutionDuration - maxDuration).
Proof.
  split; [vm_compute; reflexivity |].
  apply (reconcile_requeue_delay Minute (Minute + 1) (sample_rr "" None)
           (set_status (sample_rr "" None)
              (MarkInProgress MessageWaitingForResolver
                 (InitializeConditions (rr_status (sample_rr "" None)))))).
  vm_compute. reflexivity.
Defined.

End ReconcilerExtraFacts.
(** * Properties of the status data encoding *)
Module Base64Facts.
Import Base64.

Example b64_some_content :
  EncodeToString (list_byte_of_string "some content") = "c29tZSBjb250ZW50".
Proof. reflexivity. Qed.

Example b64_pad2 : EncodeToString (list_byte_of_string "a") = "YQ==".
Proof. reflexivity. Qed.

Example b64_decode_pad1 : DecodeString "YWI=" = Some (list_byte_of_string "ab").
Proof. reflexivity. Qed.

(** Every sextet is encoded by a non-padding character that decodes back. *)
Lemma enc_char_nat (n : nat) :
  (n < 64)%nat ->
  dec_char (enc_char (Z.of_nat n)) = Some (Z.of_nat n) /\
  Ascii.eqb (enc_char (Z.of_nat n)) padChar = false.
Proof.
  intros H.
  do 64 (destruct n as [|n]; [split; reflexivity |]).
  lia.
Qed.

Lemma enc_char_dec (k : Z) : 0 <= k < 64 -> dec_char (enc_char k) = Some k.
Proof.
  intros H. rewrite <- (Z2Nat.id k) by lia.
  apply enc_char_nat. lia.
Qed.

Lemma enc_char_not_pad (k : Z) : 0 <= k < 64 -> Ascii.eqb (enc_char k) padChar = false.
Proof.
  intros H. rewrite <- (Z2Nat.id k) by lia.
  apply enc_char_nat. lia.
Qed.

Lemma b2z_range (b : byte) : 0 <= b2z b < 256.
Proof.
  unfold b2z. pose proof (Byte.to_N_bounded b). lia.
Qed.

Lemma z2b_b2z (b : byte) : z2b (b2z b) = Some b.
Proof. unfold z2b, b2z. rewrite N2Z.id. apply Byte.of_to_N. Qed.

Lemma quantum3 (v a b c : Z) :
  0 <= a < 256 -> 0 <= b < 256 -> 0 <= c < 256 -> v = a * 65536 + b * 256 + c ->
  (0 <= v / 262144 < 64 /\ 0 <= v / 4096 mod 64 < 64 /\
   0 <= v / 64 mod 64 < 64 /\ 0 <= v mod 64 < 64) /\
  v / 262144 * 262144 + v / 4096 mod 64 * 4096 + v / 64 mod 64 * 64 + v mod 64 = v /\
  v / 65536 = a /\ v / 256 mod 256 = b /\ v mod 256 = c.
Proof. intros. subst v. Z.div_mod_to_equations. lia. Qed.
Lemma quantum2 (v a b : Z) :
  0 <= a < 256 -> 0 <= b < 256 -> v = a * 65536 + b * 256 ->
  (0 <= v / 262144 < 64 /\ 0 <= v / 4096 mod 64 < 64 /\ 0 <= v / 64 mod 64 < 64) /\
  v / 64 mod 64 mod 4 = 0 /\
  v / 262144 * 262144 + v / 4096 mod 64 * 4096 + v / 64 mod 64 * 64 = v /\
  v / 65536 = a /\ v / 256 mod 256 = b.
Proof. intros. subst v. Z.div_mod_to_equations. lia. Qed.
Lemma quantum1 (v a : Z) :
  0 <= a < 256 -> v = a * 65536 ->
  (0 <= v / 262144 < 64 /\ 0 <= v / 4096 mod 64 < 64) /\
  v / 4096 mod 64 mod 16 = 0 /\
  v / 262144 * 262144 + v / 4096 mod 64 * 4096 = v /\
  v / 65536 = a.
Proof. intros. subst v. Z.div_mod_to_equations. lia. Qed.

Lemma decode_quantum (c1 c2 c3 c4 : ascii) (rest : string) :
  DecodeString (String c1 (String c2 (String c3 (String c4 rest)))) =
    match dec_char c1, dec_char c2 with
    | Some d1, Some d2 =>
      if Ascii.eqb c3 padChar then
        if Ascii.eqb c4 padChar && String.eqb rest "" && (d2 mod 16 =? 0) then
          bytes_of [(d1 * 262144 + d2 * 4096) / 65536]
        else None
      else
        match dec_char c3 with
        | None => None
        | Some d3 =>
          if Ascii.eqb c4 padChar then
            if String.eqb rest "" && (d3 mod 4 =? 0) then
              bytes_of [(d1 * 262144 + d2 * 4096 + d3 * 64) / 65536;
                        (d1 * 262144 + d2 * 4096 + d3 * 64) / 256 mod 256]
            else None
          else
            match dec_char c4 with
            | None => None
            | Some d4 =>
              match bytes_of [(d1 * 262144 + d2 * 4096 + d3 * 64 + d4) / 65536;
                              (d1 * 262144 + d2 * 4096 + d3 * 64 + d4) / 256 mod 256;
                              (d1 * 262144 + d2 * 4096 + d3 * 64 + d4) mod 256],
                    DecodeString rest with
              | Some bs, Some bs' => Some (app bs bs')
              | _, _ => None
              end
            end
        end
    | _, _ => None
    end.
Proof. reflexivity. Qed.

Lemma roundtrip_bounded (n : nat) (l : list byte) :
  (length l <= n)%nat -> DecodeString (EncodeToString l) = Some l.
Proof.
  revert l. induction n as [| n IH]; intros l Hlen.
  - destruct l; [reflexivity | simpl in Hlen; lia].
  - destruct l as [| a [| b [| c rest]]].
    + reflexivity.
    + (* one byte, two padding characters *)
      cbn [EncodeToString]. cbv zeta.
      remember (b2z a * 65536) as v eqn:Hv.
      destruct (quantum1 v (b2z a) (b2z_range a) Hv)
        as [[R1 R2] [Hpad [Hw Ha]]].
      rewrite decode_quantum, !enc_char_dec by assumption.
      cbv beta iota.
      rewrite Hw. cbn [Ascii.eqb padChar]. rewrite Hpad. cbn.
      rewrite Ha. unfold bytes_of. rewrite z2b_b2z. reflexivity.
    + (* two bytes, one padding character *)
      cbn [EncodeToString]. cbv zeta.
      remember (b2z a * 65536 + b2z b * 256) as v eqn:Hv.
      destruct (quantum2 v (b2z a) (b2z b) (b2z_range a) (b2z_range b) Hv)
        as [[R1 [R2 R3]] [Hpad [Hw [Ha Hb]]]].
      rewrite decode_quantum, !enc_char_dec by assumption.
      rewrite !enc_char_not_pad by assumption.
      cbv beta iota.
      rewrite Hw. cbn [Ascii.eqb padChar]. rewrite Hpad. cbn.
      rewrite Ha, Hb. unfold bytes_of. rewrite !z2b_b2z. reflexivity.
    + (* a full quantum *)
      cbn [EncodeToString]. cbv zeta.
      remember (b2z a * 65536 + b2z b * 256 + b2z c) as v eqn:Hv.
      destruct (quantum3 v (b2z a) (b2z b) (b2z c)
                  (b2z_range a) (b2z_range b) (b2z_range c) Hv)
        as [[R1 [R2 [R3 R4]]] [Hw [Ha [Hb Hc]]]].
      rewrite decode_quantum, !enc_char_dec by assumption.
      rewrite !enc_char_not_pad by assumption.
      cbv beta iota.
      rewrite Hw, Ha, Hb, Hc. unfold bytes_of. rewrite !z2b_b2z.
      rewrite IH by (simpl in Hlen; lia). reflexivity.
Qed.

Lemma decode_encode (l : list byte) : DecodeString (EncodeToString l) = Some l.
Proof. apply (roundtrip_bounded (length l)). lia. Qed.

End Base64Facts.

(** * Properties of the git resolver *)
Module GitFacts.
Import Git GitTesting.

Example resolve_default_branch :
  Resolve test_remotes [("url", "/tmp/history"); ("path", "foo/bar/somefile")]
  = inr {| Content := list_byte_of_string "different content"; Commit := hash2 |}.
Proof. reflexivity. Qed.

Example resolve_pinned_commit :
  Resolve test_remotes [("url", "/tmp/history"); ("path", "foo/bar/somefile");
                        ("commit", hash1)]
  = inr {| Content := list_byte_of_string "some content"; Commit := hash1 |}.
Proof. reflexivity. Qed.

Example resolve_branch :
  Resolve test_remotes [("url", "/tmp/branches"); ("path", "foo/bar/somefile");
                        ("branch", "other-branch")]
  = inr {| Content := list_byte_of_string "some content"; Commit := hash1 |}.
Proof. reflexivity. Qed.

Example resolve_directory_not_found :
  Resolve test_remotes [("url", "/tmp/history"); ("path", "foo/bar")]
  = inl (file_not_found "foo/bar").
Proof. reflexivity. Qed.

Lemma lookup_has_key {A : Type} (k : string) (m : list (string * A)) (v : A) :
  lookup k m = Some v -> has_key k m = true.
Proof. unfold has_key. intros ->. reflexivity. Qed.

Lemma has_key_lookup {A : Type} (k : string) (m : list (string * A)) :
  has_key k m = true -> exists v, lookup k m = Some v.
Proof. unfold has_key. destruct (lookup k m); [eauto | discriminate]. Qed.

Lemma lookup_get (k : string) (m : list (string * string)) (v : string) :
  lookup k m = Some v -> get k m = v.
Proof. unfold get. intros ->. reflexivity. Qed.

Lemma lookup_key_forallb {A : Type} (P : string -> bool) (k : string)
  (m : list (string * A)) (v : A) :
  forallb (fun p => P (fst p)) m = true -> lookup k m = Some v -> P k = true.
Proof.
  induction m as [| [k' v'] m IH]; simpl; [discriminate |].
  intros Hall Hl. apply andb_prop in Hall. destruct Hall as [Hk Hall].
  destruct (String.eqb_spec k k') as [-> | _]; [exact Hk | exact (IH Hall Hl)].
Qed.

Lemma has_key_false_lookup {A : Type} (k : string) (m : list (string * A)) :
  has_key k m = false -> lookup k m = None.
Proof. unfold has_key. destruct (lookup k m); [discriminate | reflexivity]. Qed.

(** Which commit [resolve_ref] picks, when it succeeds. *)
Lemma resolve_ref_expected (repo : Repository) (params : list (string * string)) (id : string) :
  resolve_ref repo params = inr id -> GitSpec.expected_commit repo params = Some id.
Proof.
  unfold resolve_ref, GitSpec.expected_commit, has_key.
  destruct (lookup CommitParam params) as [c |] eqn:Hc.
  - destruct (lookup c (repo_commits repo)); [| discriminate].
    intros E; injection E as <-. rewrite (lookup_get _ _ _ Hc). reflexivity.
  - destruct (lookup BranchParam params) as [b |] eqn:Hb.
    + rewrite (lookup_get _ _ _ Hb).
      destruct (lookup (branch_ref b) (repo_refs repo)); [| discriminate].
      intros E; injection E as <-. reflexivity.
    + destruct (lookup (repo_head repo) (repo_refs repo)); [| discriminate].
      intros E; injection E as <-. reflexivity.
Qed.

(** Conversely, [resolve_ref] picks the expected commit when that commit
    exists. *)
Lemma expected_resolve_ref (repo : Repository) (params : list (string * string))
  (id : string) (tree : Tree) :
  GitSpec.expected_commit repo params = Some id ->
  lookup id (repo_commits repo) = Some tree ->
  resolve_ref repo params = inr id.
Proof.
  unfold resolve_ref, GitSpec.expected_commit.
  destruct (lookup CommitParam params) as [c |] eqn:Hc.
  - rewrite (lookup_has_key _ _ _ Hc), (lookup_get _ _ _ Hc).
    intros E Ht; injection E as <-. rewrite (lookup_has_key _ _ _ Ht). reflexivity.
  - assert (Hk : has_key CommitParam params = false)
      by (unfold has_key; rewrite Hc; reflexivity).
    rewrite Hk.
    destruct (lookup BranchParam params) as [b |] eqn:Hb.
    + rewrite (lookup_has_key _ _ _ Hb), (lookup_get _ _ _ Hb). intros -> _. reflexivity.
    + assert (Hb' : has_key BranchParam params = false)
        by (unfold has_key; rewrite Hb; reflexivity).
      rewrite Hb'. intros -> _. reflexivity.
Qed.

(** C1: for validated parameters naming a reachable repository, a
    successful [Resolve] returns the commit the specification selects (the
    given commit, else the tip of refs/heads/<branch>, else the default
    branch tip), the exact bytes of the file at the path in that commit, and,
    when the repository names its commits by full hex ids, a full hex id;
    conversely, when the selected commit exists and has a file at the path,
    [Resolve] returns exactly that content and commit. *)
Theorem resolve_returns_expected (remotes : Remotes) (params : list (string * string))
  (repo : Repository) :
  ValidateParams params = None ->
  lookup (get URLParam params) remotes = Some repo ->
  (forall res, Resolve remotes params = inr res ->
     GitSpec.expected_commit repo params = Some (Commit res) /\
     GitSpec.file_at repo (Commit res) (get PathParam params) = Some (Content res) /\
     (GitSpec.commit_ids_hex repo = true -> GitSpec.is_hex_id (Commit res) = true)) /\
  (forall id content,
     GitSpec.expected_commit repo params = Some id ->
     GitSpec.file_at repo id (get PathParam params) = Some content ->
     Resolve remotes params = inr {| Content := content; Commit := id |}).
Proof.
  intros _ Hurl. split.
  - intros res. unfold Resolve. rewrite Hurl. cbv zeta.
    destruct (resolve_ref repo params) as [e | id] eqn:Hr; [discriminate |].
    destruct (lookup id (repo_commits repo)) as [tree |] eqn:Ht; [| discriminate].
    destruct (lookup (get PathParam params) tree) as [[c |] |] eqn:Hp;
      try discriminate.
    intros E; injection E as <-. simpl.
    split; [apply resolve_ref_expected; exact Hr |].
    split; [unfold GitSpec.file_at; rewrite Ht, Hp; reflexivity |].
    intros Hhex. exact (lookup_key_forallb _ _ _ _ Hhex Ht).
  - intros id content He Hf. unfold GitSpec.file_at in Hf.
    destruct (lookup id (repo_commits repo)) as [tree |] eqn:Ht; [| discriminate].
    destruct (lookup (get PathParam params) tree) as [[c |] |] eqn:Hp;
      try discriminate.
    injection Hf as <-. unfold Resolve. rewrite Hurl.
    rewrite (expected_resolve_ref _ _ _ _ He Ht). cbv zeta. rewrite Ht, Hp.
    reflexivity.
Qed.

Lemma resolve_returns_expected_witness :
  ValidateParams [("url", "/tmp/history"); ("path", "foo/bar/somefile"); ("commit", hash1)]
    = None /\
  lookup (get URLParam [("url", "/tmp/history"); ("path", "foo/bar/somefile");
                        ("commit", hash1)]) test_remotes = Some history_repo /\
  (forall res,
     Resolve test_remotes [("url", "/tmp/history"); ("path", "foo/bar/somefile");
                           ("commit", hash1)] = inr res ->
     GitSpec.expected_commit history_repo
       [("url", "/tmp/history"); ("path", "foo/bar/somefile"); ("commit", hash1)]
       = Some (Commit res) /\
     GitSpec.file_at history_repo (Commit res)
       (get PathParam [("url", "/tmp/history"); ("path", "foo/bar/somefile");
                       ("commit", hash1)]) = Some (Content res) /\
     (GitSpec.commit_ids_hex history_repo = true -> GitSpec.is_hex_id (Commit res) = true)) /\
  (forall id content,
     GitSpec.expected_commit history_repo
       [("url", "/tmp/history"); ("path", "foo/bar/somefile"); ("commit", hash1)] = Some id ->
     GitSpec.file_at history_repo id
       (get PathParam [("url", "/tmp/history"); ("path", "foo/bar/somefile");
                       ("commit", hash1)]) = Some content ->
     Resolve test_remotes [("url", "/tmp/history"); ("path", "foo/bar/somefile");
                           ("commit", hash1)] = inr {| Content := content; Commit := id |}).
Proof.
  split; [reflexivity | split; [reflexivity |]].
  apply resolve_returns_expected; reflexivity.
Defined.

Example history_repo_hex : GitSpec.commit_ids_hex history_repo = true.
Proof. reflexivity. Qed.

(** C5: the not-found failures of [Resolve] carry these messages verbatim:
    a path that is not a file of the selected commit's tree gives
    error opening file "<path>": file does not exist; a branch without
    refs/heads/<branch> gives
    clone error: couldn't find remote ref "refs/heads/<branch>"; a commit id
    naming no commit gives checkout error: object not found. *)
Theorem resolve_not_found_messages (remotes : Remotes) (params : list (string * string))
  (repo : Repository) :
  lookup (get URLParam params) remotes = Some repo ->
  (forall id tree,
     GitSpec.expected_commit repo params = Some id ->
     lookup id (repo_commits repo) = Some tree ->
     (forall c, lookup (get PathParam params) tree <> Some (Blob c)) ->
     Resolve remotes params =
       inl ("error opening file " ++ dq ++ get PathParam params ++ dq
            ++ ": file does not exist")) /\
  (forall b,
     lookup CommitParam params = None ->
     lookup BranchParam params = Some b ->
     lookup ("refs/heads/" ++ b) (repo_refs repo) = None ->
     Resolve remotes params =
       inl ("clone error: couldn't find remote ref " ++ dq ++ "refs/heads/" ++ b ++ dq)) /\
  (forall c,
     lookup CommitParam params = Some c ->
     has_key c (repo_commits repo) = false ->
     Resolve remotes params = inl "checkout error: object not found").
Proof.
  intros Hurl. split; [| split].
  - intros id tree He Ht Hnf. unfold Resolve. rewrite Hurl.
    rewrite (expected_resolve_ref _ _ _ _ He Ht). cbv zeta. rewrite Ht.
    unfold file_not_found. rewrite quote_app.
    destruct (lookup (get PathParam params) tree) as [[c |] |] eqn:Hp;
      [exfalso; exact (Hnf c eq_refl) | reflexivity | reflexivity].
  - intros b Hc Hb Hr. unfold Resolve. rewrite Hurl. unfold resolve_ref.
    rewrite Hc, Hb. unfold branch_ref. rewrite Hr. unfold quote. reflexivity.
  - intros c Hc Hk. unfold Resolve. rewrite Hurl. unfold resolve_ref.
    rewrite Hc, Hk. reflexivity.
Qed.

Lemma resolve_not_found_messages_witness :
  Resolve test_remotes [("url", "/tmp/history"); ("path", "foo/bar/some other file")]
  = inl ("error opening file " ++ dq ++ "foo/bar/some other file" ++ dq
         ++ ": file does not exist") /\
  Resolve test_remotes [("url", "/tmp/history"); ("path", "foo/bar/some other file");
                        ("branch", "does-not-exist")]
  = inl ("clone error: couldn't find remote ref " ++ dq ++ "refs/heads/"
         ++ "does-not-exist" ++ dq) /\
  Resolve test_remotes [("url", "/tmp/history"); ("path", "foo/bar/some other file");
                        ("commit", "646f65732d6e6f742d6578697374")]
  = inl "checkout error: object not found".
Proof.
  split; [| split].
  - destruct (resolve_not_found_messages test_remotes
                [("url", "/tmp/history"); ("path", "foo/bar/some other file")]
                history_repo eq_refl) as [H _].
    apply (H hash2 (tree_with "different content")); [reflexivity | reflexivity |].
    intros c; discriminate.
  - destruct (resolve_not_found_messages test_remotes
                [("url", "/tmp/history"); ("path", "foo/bar/some other file");
                 ("branch", "does-not-exist")] history_repo eq_refl) as [_ [H _]].
    apply (H "does-not-exist"); reflexivity.
  - destruct (resolve_not_found_messages test_remotes
                [("url", "/tmp/history"); ("path", "foo/bar/some other file");
                 ("commit", "646f65732d6e6f742d6578697374")] history_repo eq_refl)
      as [_ [_ H]].
    apply (H "646f65732d6e6f742d6578697374"); reflexivity.
Defined.

(** C4: [ValidateParams] fails exactly when url or path is missing or both
    commit and branch are present. *)
Theorem validate_params_iff (params : list (string * string)) :
  ValidateParams params <> None <->
  has_key URLParam params = false \/ has_key PathParam params = false \/
  (has_key CommitParam params = true /\ has_key BranchParam params = true).
Proof.
  unfold ValidateParams.
  destruct (has_key URLParam params), (has_key PathParam params),
           (has_key CommitParam params), (has_key BranchParam params);
    simpl; split; intros H; try discriminate; try tauto;
    try (destruct H as [H | [H | [H1 H2]]]; discriminate).
Qed.

Example validate_params_tests :
  ValidateParams [("url", "foo"); ("path", "bar"); ("commit", "baz")] = None /\
  ValidateParams [("url", "foo"); ("path", "bar"); ("branch", "baz")] = None /\
  ValidateParams [("path", "bar"); ("commit", "baz")] <> None /\
  ValidateParams [("url", "foo"); ("branch", "baz")] <> None /\
  ValidateParams [("url", "foo"); ("path", "bar"); ("commit", "baz"); ("branch", "quux")]
    <> None.
Proof. repeat split; discriminate. Qed.

Example parse_5s : Duration.ParseDuration "5s" = Some (5 * Second).
Proof. reflexivity. Qed.

Example parse_1m0s : Duration.ParseDuration "1m0s" = Some Minute.
Proof. reflexivity. Qed.

Example parse_1h30m : Duration.ParseDuration "1h30m" = Some (90 * Minute).
Proof. reflexivity. Qed.

Example parse_neg_ms : Duration.ParseDuration "-250ms" = Some (-250 * Millisecond).
Proof. reflexivity. Qed.

Example parse_invalid :
  Duration.ParseDuration "" = None /\ Duration.ParseDuration "5" = None /\
  Duration.ParseDuration "5x" = None /\ Duration.ParseDuration "s" = None.
Proof. repeat split. Qed.

(** C9: [GetResolutionTimeout] returns the duration configured under
    "timeout" in the request's resolver configuration when present and valid,
    and the caller's default when there is no configuration or no timeout in
    it. *)
Theorem git_resolution_timeout (m : list (string * string)) (timeoutString : string)
  (d defaultTimeout : Z) :
  lookup ConfigFieldTimeout m = Some timeoutString ->
  Duration.ParseDuration timeoutString = Some d ->
  GetResolutionTimeout (Some m) defaultTimeout = d /\
  GetResolutionTimeout None defaultTimeout = defaultTimeout /\
  (forall m', lookup ConfigFieldTimeout m' = None ->
              GetResolutionTimeout (Some m') defaultTimeout = defaultTimeout).
Proof.
  intros Hl Hp. split; [| split].
  - unfold GetResolutionTimeout. rewrite Hl, Hp. reflexivity.
  - reflexivity.
  - intros m' Hm'. unfold GetResolutionTimeout. rewrite Hm'. reflexivity.
Qed.

Lemma git_resolution_timeout_witness :
  GetResolutionTimeout (Some [("timeout", "1.5h")]) (30 * Minute) = 90 * Minute /\
  GetResolutionTimeout None (30 * Minute) = 30 * Minute /\
  (forall m', lookup ConfigFieldTimeout m' = None ->
              GetResolutionTimeout (Some m') (30 * Minute) = 30 * Minute).
Proof. apply (git_resolution_timeout [("timeout", "1.5h")] "1.5h"); vm_compute; reflexivity. Defined.

End GitFacts.

(** * Properties of the framework driver *)
Module FrameworkFacts.
Import Framework FrameworkTesting.

Lemma error_getting_message (n ns nm e : string) :
  "error getting " ++ quote n ++ " " ++ quote (ns ++ "/" ++ nm) ++ ": " ++ e =
  "error getting " ++ dq ++ n ++ dq ++ " " ++ dq ++ ns ++ "/" ++ nm ++ dq ++ ": " ++ e.
Proof. rewrite !quote_app, !string_app_assoc. reflexivity. Qed.

Lemma not_timed_out (now : Z) (rr : ResolutionRequest) :
  time_sub now (rr_creation rr) <= defaultMaximumResolutionDuration ->
  (defaultMaximumResolutionDuration <? time_sub now (rr_creation rr)) = false.
Proof. intros H. apply Z.ltb_ge. exact H. Qed.

(** C7: when the resolver fails with an error other than a deadline expiry,
    the driver marks the request Failed with reason ResolutionFailed and the
    message error getting "<name>" "<namespace>/<name>": <error>, which it
    also returns as the reconcile error. *)
Theorem reconcile_resolver_error {R : Type} `{Resolver R} (r : R) (conf : ResolverConfig)
  (now : Z) (rr : ResolutionRequest) (e : string) :
  IsDone rr = false ->
  time_sub now (rr_creation rr) <= defaultMaximumResolutionDuration ->
  ValidateParams r (rr_params rr) = None ->
  Resolve r (effective_timeout r conf (time_sub now (rr_creation rr))) (rr_params rr)
    = inl (ErrResolve e) ->
  exists rr',
    Reconcile r conf now rr =
      (rr', EvError ("error getting " ++ dq ++ GetName r ++ dq ++ " " ++ dq
                     ++ rr_namespace rr ++ "/" ++ rr_name rr ++ dq ++ ": " ++ e)) /\
    st_condition (rr_status rr') =
      Some {| cond_status := CondFalse; cond_reason := ReasonResolutionFailed;
              cond_message := "error getting " ++ dq ++ GetName r ++ dq ++ " " ++ dq
                     ++ rr_namespace rr ++ "/" ++ rr_name rr ++ dq ++ ": " ++ e |}.
Proof.
  intros Hdone Hle Hv Hr. unfold Reconcile. rewrite Hdone. cbv zeta.
  rewrite (not_timed_out _ _ Hle), Hv, Hr. cbv beta iota.
  rewrite error_getting_message.
  eexists; split; reflexivity.
Qed.

Lemma reconcile_resolver_error_witness :
  exists rr',
    Reconcile failing_resolver None 0 fake_request =
      (rr', EvError ("error getting " ++ dq ++ "Fake" ++ dq ++ " " ++ dq
                     ++ "foo" ++ "/" ++ "rr" ++ dq ++ ": " ++ "fake failure")) /\
    st_condition (rr_status rr') =
      Some {| cond_status := CondFalse; cond_reason := ReasonResolutionFailed;
              cond_message := "error getting " ++ dq ++ "Fake" ++ dq ++ " " ++ dq
                     ++ "foo" ++ "/" ++ "rr" ++ dq ++ ": " ++ "fake failure" |}.
Proof.
  exact (reconcile_resolver_error failing_resolver None 0 fake_request "fake failure"
           eq_refl ltac:(vm_compute; discriminate) eq_refl ltac:(vm_compute; reflexivity)).
Defined.

(** C8: on a successful resolution the driver stores the content in
    [status.data] with the base64 encoding, from which decoding gives back
    exactly the resolver's bytes, sets the status annotations to the
    resolver's annotations and marks the request Succeeded. *)
Theorem reconcile_success_data {R : Type} `{Resolver R} (r : R) (conf : ResolverConfig)
  (now : Z) (rr : ResolutionRequest) (res : ResolvedResource) :
  IsDone rr = false ->
  time_sub now (rr_creation rr) <= defaultMaximumResolutionDuration ->
  ValidateParams r (rr_params rr) = None ->
  Resolve r (effective_timeout r conf (time_sub now (rr_creation rr))) (rr_params rr)
    = inr res ->
  exists rr',
    Reconcile r conf now rr = (rr', EvNil) /\
    st_data (rr_status rr') = Base64.EncodeToString (rs_data res) /\
    Base64.DecodeString (st_data (rr_status rr')) = Some (rs_data res) /\
    st_annotations (rr_status rr') = rs_annotations res /\
    option_map cond_status (st_condition (rr_status rr')) = Some CondTrue.
Proof.
  intros Hdone Hle Hv Hr. unfold Reconcile. rewrite Hdone. cbv zeta.
  rewrite (not_timed_out _ _ Hle), Hv, Hr. cbv beta iota.
  eexists; split; [reflexivity |].
  split; [reflexivity |]. split; [apply Base64Facts.decode_encode |].
  split; reflexivity.
Qed.

Lemma reconcile_success_data_witness :
  exists rr',
    Reconcile known_resolver None 0 fake_request = (rr', EvNil) /\
    st_data (rr_status rr') =
      Base64.EncodeToString (list_byte_of_string "some content") /\
    Base64.DecodeString (st_data (rr_status rr')) =
      Some (list_byte_of_string "some content") /\
    st_annotations (rr_status rr') = [("foo", "bar")] /\
    option_map cond_status (st_condition (rr_status rr')) = Some CondTrue.
Proof.
  apply (reconcile_success_data known_resolver None 0 fake_request
           {| rs_data := list_byte_of_string "some content";
              rs_annotations := [("foo", "bar")] |});
    [reflexivity | vm_compute; discriminate | reflexivity | vm_compute; reflexivity].
Defined.

Example known_value_status :
  st_data (rr_status (fst (Reconcile known_resolver None 0 fake_request)))
  = "c29tZSBjb250ZW50".
Proof. vm_compute. reflexivity. Qed.

End FrameworkFacts.

(** ** Properties of CreateTestRepo's bookkeeping *)
Module CreateTestRepoFacts.
Import CreateTestRepo.

(** A map lookup, extended by the hashes [l] appended after it. *)
Definition extend (o : option (list string)) (l : list string) : option (list string) :=
  match o, l with
  | None, [] => None
  | None, _ => Some l
  | Some l0, _ => Some (app l0 l)
  end.

Lemma lookup_map_set {A : Type} (k k' : string) (v : A) (m : list (string * A)) :
  lookup k' (map_set k v m) = if String.eqb k' k then Some v else lookup k' m.
Proof.
  induction m as [|[k0 v0] m IH]; simpl.
  - reflexivity.
  - destruct (String.eqb k k0) eqn:E; simpl.
    + apply String.eqb_eq in E; subst k0. destruct (String.eqb k' k); reflexivity.
    + rewrite IH. destruct (String.eqb k' k) eqn:E1, (String.eqb k' k0) eqn:E2; try reflexivity.
      apply String.eqb_eq in E1, E2; subst. rewrite String.eqb_refl in E. discriminate.
Qed.

Lemma has_key_map_set {A : Type} (k k' : string) (v : A) (m : list (string * A)) :
  has_key k' (map_set k v m) = String.eqb k' k || has_key k' m.
Proof.
  unfold has_key. rewrite lookup_map_set. destruct (String.eqb k' k); reflexivity.
Qed.

Lemma commit_loop_hashes (h : nat -> string) (s : string) (b : string) :
  forall cmts i hbb,
  lookup b (snd (commit_loop h s i cmts hbb)) =
  extend (lookup b hbb) (map h (commit_indices b cmts i)).
Proof.
  induction cmts as [|c cs IH]; intros i hbb.
  - simpl. destruct (lookup b hbb); simpl; [rewrite app_nil_r|]; reflexivity.
  - cbn [commit_loop].
    match goal with |- context [commit_loop ?a ?b' ?c' ?d ?e] =>
      pose proof (IH c' e) as IHc; destruct (commit_loop a b' c' d e) as [opts final] end.
    simpl snd in *. rewrite IHc. simpl commit_indices.
    destruct (String.eqb (commit_branch c) b) eqn:Eb.
    + apply String.eqb_eq in Eb. subst b.
      destruct (lookup (commit_branch c) hbb) as [hs|] eqn:El;
        rewrite lookup_map_set, String.eqb_refl; simpl.
      * rewrite <- app_assoc. reflexivity.
      * reflexivity.
    + assert (Hb : String.eqb b (commit_branch c) = false)
        by (rewrite String.eqb_sym; exact Eb).
      destruct (lookup (commit_branch c) hbb); rewrite lookup_map_set, Hb; reflexivity.
Qed.

(** The map CreateTestRepo returns sends a branch to the hashes of the
    commits made on it (master for a commit with no branch), in commit order,
    and has no entry for a branch no commit goes to. *)
Theorem create_test_repo_hashes (h : nat -> string) (startingHash : string)
  (commits : list CommitForRepo) (b : string) :
  lookup b (snd (create_test_repo h startingHash commits)) =
  match commit_indices b commits 0 with
  | [] => None
  | is => Some (map h is)
  end.
Proof.
  unfold create_test_repo. rewrite commit_loop_hashes. simpl.
  destruct (commit_indices b commits 0); reflexivity.
Qed.

Lemma commit_loop_checkout (h : nat -> string) (s : string) :
  forall cmts i hbb j cmt,
  nth_error cmts j = Some cmt ->
  exists co,
    nth_error (fst (commit_loop h s i cmts hbb)) j = Some co /\
    co_Branch co = NewBranchReferenceName (commit_branch cmt) /\
    (co_Create co = true <->
       commit_branch cmt <> MasterShort /\
       has_key (commit_branch cmt) hbb = false /\
       ~ In (commit_branch cmt) (map commit_branch (firstn j cmts))) /\
    co_Hash co = (if co_Create co then Some s else None).
Proof.
  induction cmts as [|c cs IH]; intros i hbb j cmt Hj.
  - destruct j; discriminate.
  - cbn [commit_loop].
    match goal with |- context [commit_loop ?a ?b' ?c' ?d ?e] =>
      pose proof (IH c' e) as IHc; destruct (commit_loop a b' c' d e) as [opts final] end.
    simpl fst. destruct j as [|j]; simpl in Hj.
    + injection Hj as <-. simpl.
      destruct (negb (has_key (commit_branch c) hbb) && negb (String.eqb (commit_branch c) MasterShort))
        eqn:E; eexists; (split; [reflexivity|]); simpl; (split; [reflexivity|]);
        (split; [|reflexivity]).
      * apply Bool.andb_true_iff in E as [E1 E2]. apply Bool.negb_true_iff in E1, E2.
        split; [intros _|reflexivity]. split; [|split; [exact E1|]].
        -- intros Hm. apply String.eqb_eq in Hm. congruence.
        -- simpl. tauto.
      * split; [discriminate|]. intros [Hm [Hk _]].
        rewrite Hk in E. simpl in E.
        destruct (String.eqb (commit_branch c) MasterShort) eqn:Em; [|discriminate].
        apply String.eqb_eq in Em. contradiction.
    + destruct (IHc j cmt Hj) as [co [Hn [Hbr [Hcr Hh]]]].
      exists co. split; [exact Hn|]. split; [exact Hbr|]. split; [|exact Hh].
      rewrite Hcr.
      assert (Hk : forall v, has_key (commit_branch cmt) (map_set (commit_branch c) v hbb) = false <->
                   has_key (commit_branch cmt) hbb = false /\ commit_branch c <> commit_branch cmt).
      { intro v. rewrite has_key_map_set, Bool.orb_false_iff.
        split; intros [H1 H2]; split; auto.
        - intro Heq. rewrite Heq, String.eqb_refl in H1. discriminate.
        - apply String.eqb_neq. auto. }
      simpl firstn. simpl map. simpl In.
      destruct (lookup (commit_branch c) hbb); rewrite Hk; intuition.
Qed.

(** The i-th commit checks out the branch it goes to (master for a
    commit with no branch); it creates that branch from the starting commit
    exactly when the branch is not master and no earlier commit went to it,
    and it gives a hash only when it creates the branch. *)
Theorem create_test_repo_checkout (h : nat -> string) (startingHash : string)
  (commits : list CommitForRepo) (i : nat) (cmt : CommitForRepo)
  (Hi : nth_error commits i = Some cmt) :
  exists co,
    nth_error (fst (create_test_repo h startingHash commits)) i = Some co /\
    co_Branch co = NewBranchReferenceName (commit_branch cmt) /\
    (co_Create co = true <->
       commit_branch cmt <> MasterShort /\
       ~ In (commit_branch cmt) (map commit_branch (firstn i commits))) /\
    co_Hash co = (if co_Create co then Some startingHash else None).
Proof.
  destruct (commit_loop_checkout h startingHash commits 0 [] i cmt Hi)
    as [co [Hn [Hbr [Hcr Hh]]]].
  exists co. split; [exact Hn|]. split; [exact Hbr|]. split; [|exact Hh].
  rewrite Hcr. unfold has_key. simpl. intuition.
Qed.

Lemma create_test_repo_checkout_witness :
  nth_error with_branch_commits 0 =
    Some {| Dir := "foo/bar"; Filename := "somefile"; cmt_Content := "some content";
            cmt_Branch := "other-branch" |} /\
  exists co,
    nth_error (fst (create_test_repo sample_hash "h-start" with_branch_commits)) 0 = Some co /\
    co_Branch co = NewBranchReferenceName "other-branch" /\
    (co_Create co = true <->
       "other-branch" <> MasterShort /\
       ~ In "other-branch" (map commit_branch (firstn 0 with_branch_commits))) /\
    co_Hash co = (if co_Create co then Some "h-start" else None).
Proof.
  split; [reflexivity|].
  exact (create_test_repo_checkout sample_hash "h-start" with_branch_commits 0
           {| Dir := "foo/bar"; Filename := "somefile"; cmt_Content := "some content";
              cmt_Branch := "other-branch" |} eq_refl).
Defined.

End CreateTestRepoFacts.
